(** * wasapi: the session lifecycle controller of [src/index.js]

    The program is one Node.js module: eight module-level variables (the
    runtime state store), a handful of [async] event handlers registered on
    the messaging client, a recovery routine [hardRestart], a watchdog on a
    timer, and a thin HTTP surface.

    JavaScript runs the handlers on a single thread.  A handler runs without
    interruption up to its next [await]; there it is suspended and the rest
    of it runs later, when the awaited promise settles.  The embedding cuts
    every [async] function at its [await]s: each piece is a function on the
    state, a suspended handler is an entry of the list of pending
    continuations, and the environment picks which event or which settled
    promise is served next. *)

From Stdlib Require Import String Ascii List ZArith Bool Lia Setoid.
Import ListNotations.

Local Open Scope string_scope.
Local Open Scope Z_scope.

(** ** JavaScript helpers *)

Module Js.

(** [s.includes(sub)]: [sub] occurs somewhere in [s]. *)
Fixpoint includes (s sub : string) : bool :=
  String.prefix sub s ||
  match s with
  | EmptyString => false
  | String _ rest => includes rest sub
  end.

(** Truthiness of a string: only the empty string is falsy. *)
Definition truthy_string (s : string) : bool :=
  negb (String.eqb s "").

(** Truthiness of a variable that holds [null]/[undefined] ([None]) or a
    string. *)
Definition truthy (v : option string) : bool :=
  match v with
  | None => false
  | Some s => truthy_string s
  end.

(** A settled promise. *)
Inductive Settled (A : Type) : Type :=
| Resolved (v : A)
| Rejected (err : string).
Arguments Resolved {A} v.
Arguments Rejected {A} err.

End Js.

(** ** Address formatting *)

(** [formatJID]; the argument is [None] for a missing ([undefined] or
    [null]) field, the result is [None] for [null]. *)
Definition formatJID (number : option string) : option string :=
  match number with
  | None => None
  | Some n =>
      if negb (Js.truthy_string n) then None
      else if Js.includes n "@" then Some n
      else if Js.includes n "-" then Some (n ++ "@g.us")
      else Some (n ++ "@c.us")
  end.

(** ** The runtime state store *)

(** The eight module-level variables.  [client] holds the identity of the
    [Client] instance the variable points to, [None] while it is
    [undefined]; [lastReadyAt] is a [Date.now()] reading in milliseconds. *)
Record Globals : Type := mkGlobals {
  client : option nat;
  qrCodeData : option string;
  isAuthenticated : bool;
  isReady : bool;
  webhookUrl : option string;
  isListening : bool;
  lastReadyAt : option Z;
  restarting : bool
}.

Definition initial_globals : Globals :=
  {| client := None; qrCodeData := None; isAuthenticated := false;
     isReady := false; webhookUrl := None; isListening := false;
     lastReadyAt := None; restarting := false |}.

Definition set_client (v : option nat) (g : Globals) : Globals :=
  {| client := v; qrCodeData := qrCodeData g;
     isAuthenticated := isAuthenticated g; isReady := isReady g;
     webhookUrl := webhookUrl g; isListening := isListening g;
     lastReadyAt := lastReadyAt g; restarting := restarting g |}.

Definition set_qrCodeData (v : option string) (g : Globals) : Globals :=
  {| client := client g; qrCodeData := v;
     isAuthenticated := isAuthenticated g; isReady := isReady g;
     webhookUrl := webhookUrl g; isListening := isListening g;
     lastReadyAt := lastReadyAt g; restarting := restarting g |}.

Definition set_isAuthenticated (v : bool) (g : Globals) : Globals :=
  {| client := client g; qrCodeData := qrCodeData g;
     isAuthenticated := v; isReady := isReady g;
     webhookUrl := webhookUrl g; isListening := isListening g;
     lastReadyAt := lastReadyAt g; restarting := restarting g |}.

Definition set_isReady (v : bool) (g : Globals) : Globals :=
  {| client := client g; qrCodeData := qrCodeData g;
     isAuthenticated := isAuthenticated g; isReady := v;
     webhookUrl := webhookUrl g; isListening := isListening g;
     lastReadyAt := lastReadyAt g; restarting := restarting g |}.

Definition set_webhookUrl (v : option string) (g : Globals) : Globals :=
  {| client := client g; qrCodeData := qrCodeData g;
     isAuthenticated := isAuthenticated g; isReady := isReady g;
     webhookUrl := v; isListening := isListening g;
     lastReadyAt := lastReadyAt g; restarting := restarting g |}.

Definition set_isListening (v : bool) (g : Globals) : Globals :=
  {| client := client g; qrCodeData := qrCodeData g;
     isAuthenticated := isAuthenticated g; isReady := isReady g;
     webhookUrl := webhookUrl g; isListening := v;
     lastReadyAt := lastReadyAt g; restarting := restarting g |}.

Definition set_lastReadyAt (v : option Z) (g : Globals) : Globals :=
  {| client := client g; qrCodeData := qrCodeData g;
     isAuthenticated := isAuthenticated g; isReady := isReady g;
     webhookUrl := webhookUrl g; isListening := isListening g;
     lastReadyAt := v; restarting := restarting g |}.

Definition set_restarting (v : bool) (g : Globals) : Globals :=
  {| client := client g; qrCodeData := qrCodeData g;
     isAuthenticated := isAuthenticated g; isReady := isReady g;
     webhookUrl := webhookUrl g; isListening := isListening g;
     lastReadyAt := lastReadyAt g; restarting := v |}.

(** ** What the program exchanges with its collaborators *)

(** An inbound message as the adapter delivers it. *)
Record Message : Type := mkMessage {
  msg_from : string;
  msg_body : string;
  msg_timestamp : Z;
  msg_hasMedia : bool
}.

(** The object posted to the webhook. *)
Record WebhookPayload : Type := mkPayload {
  from : string;
  body : string;
  timestamp : Z;
  chatId : string;
  isGroup : bool;
  hasMedia : bool
}.

(** An entry of [client.getChats()]. *)
Record Chat : Type := mkChat {
  chat_id : string;
  chat_name : string;
  chat_isGroup : bool
}.

(** The two directories [hardRestart] removes. *)
Inductive Dir : Type := AuthDir | CacheDir.

Definition dir_path (d : Dir) : string :=
  match d with
  | AuthDir => ".wwebjs_auth"
  | CacheDir => ".wwebjs_cache"
  end.

(** What [fs.rmSync(path, { recursive: true, force: true })] finds: nothing
    ([force] makes that a success), a tree it removes, or a tree whose
    removal fails with an error code, which [rmSync] throws. *)
Inductive DirState : Type :=
| Missing
| Removable
| Stuck (errno : string).

Inductive Level : Type := LogLevel | WarnLevel | ErrorLevel.

(** The value a promise resolves to. *)
Inductive Value : Type :=
| VUndefined
| VString (s : string)
| VChats (chats : list Chat).

(** Response bodies of the HTTP surface. *)
Inductive Body : Type :=
| HealthBody (status : string) (authenticated : bool) (uptime : Z)
    (timestamp : string)
| MessageBody (message : string)
| QrBody (qr : string)
| ErrorBody (error : string)
| SuccessBody (response : Value)
| FailureBody (error : string)
| GroupsBody (groups : list (string * string))
| ListeningBody (message : string)
| UrlBody (url : option string).

(** Calls the program makes on the outside world, in program order.
    Console texts are given without the emoji that starts them. *)
Inductive Effect : Type :=
| Console (level : Level) (text : string)
| NewClient (id : nat)
| ClientInitialize (id : nat)
| ClientDestroy (id : nat)
| ToDataURL (qr : string)
| AxiosPost (url : string) (payload : WebhookPayload)
| RmSync (path : string)
| SetTimeout (ms : Z)
| SendMessage (id : option nat) (jid : option string)
    (content : option string) (quotedMessageId : option (option string))
| GetChats (id : option nat)
| Respond (status : Z) (body : Body)
| UnhandledRejection (err : string).

(** A handler parked at an [await], named after the promise it waits for. *)
Inductive Task : Type :=
| AwaitInitialize
| AwaitToDataURL
| AwaitPost
| AwaitDestroy (wipeAuth : bool)
| AwaitSleep
| AwaitSendMessage
| AwaitGetChats.

(** The variables, the parked handlers and the two directories. *)
Record World : Type := mkWorld {
  vars : Globals;
  pending : list Task;
  auth_dir : DirState;
  cache_dir : DirState
}.

Definition initial_world : World :=
  {| vars := initial_globals; pending := [];
     auth_dir := Missing; cache_dir := Missing |}.

Definition set_vars (g : Globals) (w : World) : World :=
  {| vars := g; pending := pending w;
     auth_dir := auth_dir w; cache_dir := cache_dir w |}.

Definition set_pending (p : list Task) (w : World) : World :=
  {| vars := vars w; pending := p;
     auth_dir := auth_dir w; cache_dir := cache_dir w |}.

Definition dir_state (d : Dir) (w : World) : DirState :=
  match d with
  | AuthDir => auth_dir w
  | CacheDir => cache_dir w
  end.

Definition set_dir (d : Dir) (s : DirState) (w : World) : World :=
  match d with
  | AuthDir =>
      {| vars := vars w; pending := pending w;
         auth_dir := s; cache_dir := cache_dir w |}
  | CacheDir =>
      {| vars := vars w; pending := pending w;
         auth_dir := auth_dir w; cache_dir := s |}
  end.

(** ** Handler code: state, output and exceptions *)

Inductive Completion (A : Type) : Type :=
| Done (a : A)
| Thrown (err : string).
Arguments Done {A} a.
Arguments Thrown {A} err.

Definition M (A : Type) : Type :=
  World -> Completion A * World * list Effect.

Definition ret {A : Type} (a : A) : M A :=
  fun w => (Done a, w, []).

Definition bind {A B : Type} (m : M A) (k : A -> M B) : M B :=
  fun w =>
    match m w with
    | (Done a, w1, out1) =>
        match k a w1 with
        | (r, w2, out2) => (r, w2, (out1 ++ out2)%list)
        end
    | (Thrown err, w1, out1) => (Thrown err, w1, out1)
    end.

Declare Scope js_scope.
Delimit Scope js_scope with js.
Notation "x <- c1 ;; c2" := (bind c1 (fun x => c2))
  (at level 61, c1 at next level, right associativity) : js_scope.
Notation "c1 ;; c2" := (bind c1 (fun _ => c2))
  (at level 61, right associativity) : js_scope.
Local Open Scope js_scope.

Definition skip : M unit := ret tt.

(** Read a variable. *)
Definition read {A : Type} (f : Globals -> A) : M A :=
  fun w => (Done (f (vars w)), w, []).

(** Assign a variable. *)
Definition assign (f : Globals -> Globals) : M unit :=
  fun w => (Done tt, set_vars (f (vars w)) w, []).

(** Call out. *)
Definition emit (e : Effect) : M unit :=
  fun w => (Done tt, w, [e]).

(** [await]: park the rest of the handler. *)
Definition await (t : Task) : M unit :=
  fun w => (Done tt, set_pending (pending w ++ [t])%list w, []).

(** [fs.rmSync(path, { recursive: true, force: true })]. *)
Definition rmSync (d : Dir) : M unit :=
  fun w =>
    match dir_state d w with
    | Missing => (Done tt, w, [RmSync (dir_path d)])
    | Removable => (Done tt, set_dir d Missing w, [RmSync (dir_path d)])
    | Stuck errno => (Thrown errno, w, [RmSync (dir_path d)])
    end.

(** Run a piece of a handler as one turn of the event loop.  Nothing
    awaits or catches the promise of a top-level handler, so an exception
    that escapes it is an unhandled rejection. *)
Definition turn (m : M unit) (w : World) : World * list Effect :=
  match m w with
  | (Done _, w', out) => (w', out)
  | (Thrown err, w', out) => (w', (out ++ [UnhandledRejection err])%list)
  end.

Definition throw {A : Type} (err : string) : M A :=
  fun w => (Thrown err, w, []).

Definition console (level : Level) (text : string) : M unit :=
  emit (Console level text).

(** ** The program *)

(** [resetRuntimeState]. *)
Definition resetRuntimeState : M unit :=
  assign (set_qrCodeData None) ;;
  assign (set_isAuthenticated false) ;;
  assign (set_isReady false).

(** The identity of the next [new Client(...)]. *)
Definition fresh_client (g : Globals) : nat :=
  match client g with
  | None => 0%nat
  | Some id => S id
  end.

(** [initializeClient], up to [await client.initialize()]; nothing follows
    the [await].  [NewClient] stands for the construction with the fixed
    options and the registration of the six listeners. *)
Definition initializeClient : M unit :=
  r <- read restarting ;;
  if r then skip else
  assign (set_restarting true) ;;
  console LogLevel "Initializing WhatsApp Client..." ;;
  resetRuntimeState ;;
  id <- read fresh_client ;;
  emit (NewClient id) ;;
  assign (set_client (Some id)) ;;
  emit (ClientInitialize id) ;;
  await AwaitInitialize.

(** [hardRestart], third piece: after [await sleep(5000)]. *)
Definition hardRestart_after_sleep : M unit :=
  assign (set_restarting false) ;;
  initializeClient.

(** [hardRestart], second piece: from the end of the [try]/[catch] around
    [client.destroy()] to [await sleep(5000)]. *)
Definition hardRestart_after_destroy (wipeAuth : bool) : M unit :=
  (if wipeAuth then
     console LogLevel "Clearing auth cache..." ;;
     rmSync AuthDir ;;
     rmSync CacheDir
   else skip) ;;
  emit (SetTimeout 5000) ;;
  await AwaitSleep.

(** [hardRestart], first piece: up to [await client.destroy()].  With no
    client there is nothing to await and the routine runs on. *)
Definition hardRestart (wipeAuth : bool) : M unit :=
  r <- read restarting ;;
  if r then skip else
  assign (set_restarting true) ;;
  console LogLevel "Restarting WhatsApp client..." ;;
  c <- read client ;;
  match c with
  | Some id => emit (ClientDestroy id) ;; await (AwaitDestroy wipeAuth)
  | None => hardRestart_after_destroy wipeAuth
  end.

(** [client.on('qr', ...)], up to [await qrcode.toDataURL(qr)]. *)
Definition on_qr (qr : string) : M unit :=
  console LogLevel "QR RECEIVED" ;;
  emit (ToDataURL qr) ;;
  await AwaitToDataURL.

(** [client.on('qr', ...)], once the data URL is there. *)
Definition on_qr_resume (data : string) : M unit :=
  assign (set_qrCodeData (Some data)) ;;
  assign (set_isAuthenticated false) ;;
  assign (set_isReady false).

(** [client.on('authenticated', ...)]. *)
Definition on_authenticated : M unit :=
  console LogLevel "AUTHENTICATED" ;;
  assign (set_isAuthenticated true).

(** [client.on('ready', ...)]; [now] is the reading of [Date.now()]. *)
Definition on_ready (now : Z) : M unit :=
  console LogLevel "CLIENT READY" ;;
  assign (set_isAuthenticated true) ;;
  assign (set_isReady true) ;;
  assign (set_qrCodeData None) ;;
  assign (set_lastReadyAt (Some now)) ;;
  assign (set_restarting false).

(** The object literal passed to [axios.post]. *)
Definition webhook_payload (msg : Message) : WebhookPayload :=
  {| from := msg_from msg;
     body := msg_body msg;
     timestamp := msg_timestamp msg;
     chatId := msg_from msg;
     isGroup := Js.includes (msg_from msg) "@g.us";
     hasMedia := msg_hasMedia msg |}.

(** [client.on('message', ...)], up to [await axios.post(...)]. *)
Definition on_message (msg : Message) : M unit :=
  listening <- read isListening ;;
  url <- read webhookUrl ;;
  if negb listening || negb (Js.truthy url) then skip else
  match url with
  | Some u => emit (AxiosPost u (webhook_payload msg)) ;; await AwaitPost
  | None => skip
  end.

(** [client.on('message', ...)], once the request has settled: the [catch]
    branch logs, the other branch has nothing left to do. *)
Definition on_message_resume (o : Js.Settled Value) : M unit :=
  match o with
  | Js.Resolved _ => skip
  | Js.Rejected err => console ErrorLevel ("Webhook failed: " ++ err)
  end.

(** [client.on('auth_failure', ...)]. *)
Definition on_auth_failure (msg : string) : M unit :=
  console ErrorLevel ("AUTH FAILURE: " ++ msg) ;;
  hardRestart true.

(** [client.on('disconnected', ...)]. *)
Definition on_disconnected (reason : string) : M unit :=
  console WarnLevel ("DISCONNECTED: " ++ reason) ;;
  hardRestart false.

(** The watchdog: period and body of the [setInterval] callback.  In the
    subtraction [null] counts as 0. *)
Definition watchdog_period : Z := 60 * 1000.

Definition stale_after : Z := 15 * 60 * 1000.

Definition to_number (v : option Z) : Z :=
  match v with
  | None => 0
  | Some n => n
  end.

Definition watchdog (now : Z) : M unit :=
  ready <- read isReady ;;
  if negb ready then skip else
  last <- read lastReadyAt ;;
  let diff := now - to_number last in
  if diff >? stale_after then
    console WarnLevel "Heartbeat lost, restarting..." ;;
    hardRestart false
  else skip.

(** ** The HTTP surface *)

Inductive Request : Type :=
| GetHealth (uptime : Z) (now : string)
| GetAuthQr
| PostSend (to message : option string)
| PostReply (chatId messageId replyText : option string)
| GetGroups
| GetListen
| PostWebhookSet (url : option string).

Definition not_ready : Effect := Respond 503 (ErrorBody "Client not ready").

(** [GET /health]; the uptime and the clock are read from the process. *)
Definition get_health (uptime : Z) (now : string) : M unit :=
  ready <- read isReady ;;
  auth <- read isAuthenticated ;;
  emit (Respond 200
          (HealthBody (if ready then "connected" else "disconnected")
             auth uptime now)).

(** [GET /auth/qr]. *)
Definition get_auth_qr : M unit :=
  auth <- read isAuthenticated ;;
  if auth then emit (Respond 200 (MessageBody "Client already authenticated"))
  else
  qr <- read qrCodeData ;;
  match qr with
  | Some data =>
      if negb (Js.truthy_string data)
      then emit (Respond 503 (MessageBody "QR not ready yet"))
      else emit (Respond 200 (QrBody data))
  | None => emit (Respond 503 (MessageBody "QR not ready yet"))
  end.

(** [POST /send], up to [await client.sendMessage(...)]. *)
Definition post_send (to message : option string) : M unit :=
  ready <- read isReady ;;
  if negb ready then emit not_ready else
  c <- read client ;;
  emit (SendMessage c (formatJID to) message None) ;;
  await AwaitSendMessage.

(** [POST /reply], up to [await client.sendMessage(...)]. *)
Definition post_reply (chatId messageId replyText : option string) : M unit :=
  ready <- read isReady ;;
  if negb ready then emit not_ready else
  c <- read client ;;
  emit (SendMessage c chatId replyText (Some messageId)) ;;
  await AwaitSendMessage.

(** The rest of [POST /send] and [POST /reply]. *)
Definition send_resume (o : Js.Settled Value) : M unit :=
  match o with
  | Js.Resolved response => emit (Respond 200 (SuccessBody response))
  | Js.Rejected err => emit (Respond 500 (FailureBody err))
  end.

(** [GET /groups], up to [await client.getChats()]. *)
Definition get_groups : M unit :=
  ready <- read isReady ;;
  if negb ready then emit not_ready else
  c <- read client ;;
  emit (GetChats c) ;;
  await AwaitGetChats.

(** The rest of [GET /groups]. *)
Definition get_groups_resume (o : Js.Settled (list Chat)) : M unit :=
  match o with
  | Js.Resolved chats =>
      emit (Respond 200
              (GroupsBody
                 (map (fun c => (chat_id c, chat_name c))
                    (filter chat_isGroup chats))))
  | Js.Rejected err => emit (Respond 500 (ErrorBody err))
  end.

(** [GET /listen]. *)
Definition get_listen : M unit :=
  assign (set_isListening true) ;;
  emit (Respond 200 (ListeningBody "Listening enabled")).

(** [POST /webhook/set]. *)
Definition post_webhook_set (url : option string) : M unit :=
  assign (set_webhookUrl url) ;;
  emit (Respond 200 (UrlBody url)).

Definition serve (req : Request) : M unit :=
  match req with
  | GetHealth uptime now => get_health uptime now
  | GetAuthQr => get_auth_qr
  | PostSend to message => post_send to message
  | PostReply chatId messageId replyText =>
      post_reply chatId messageId replyText
  | GetGroups => get_groups
  | GetListen => get_listen
  | PostWebhookSet url => post_webhook_set url
  end.

(** ** The event loop *)

(** What the environment can make happen next: an adapter event, a timer
    tick, a request, the settling of an awaited promise (the [i]-th parked
    handler), or a change to one of the directories. *)
Inductive Event : Type :=
| OnQr (qr : string)
| OnAuthenticated
| OnReady (now : Z)
| OnMessage (msg : Message)
| OnAuthFailure (msg : string)
| OnDisconnected (reason : string)
| Tick (now : Z)
| Http (req : Request)
| Settle (i : nat) (o : Js.Settled Value)
| FsChange (d : Dir) (s : DirState).

(** The rest of the handler parked as [t], when its promise settles as [o];
    [None] where the promise cannot settle that way ([setTimeout] does not
    reject, [toDataURL] resolves to a string, [getChats] to a list of
    chats). *)
Definition resume (t : Task) (o : Js.Settled Value) : option (M unit) :=
  match t, o with
  | AwaitInitialize, Js.Resolved _ => Some skip
  | AwaitInitialize, Js.Rejected err => Some (throw err)
  | AwaitToDataURL, Js.Resolved (VString data) => Some (on_qr_resume data)
  | AwaitToDataURL, Js.Resolved _ => None
  | AwaitToDataURL, Js.Rejected err => Some (throw err)
  | AwaitPost, _ => Some (on_message_resume o)
  | AwaitDestroy wipeAuth, _ => Some (hardRestart_after_destroy wipeAuth)
  | AwaitSleep, Js.Resolved _ => Some hardRestart_after_sleep
  | AwaitSleep, Js.Rejected _ => None
  | AwaitSendMessage, _ => Some (send_resume o)
  | AwaitGetChats, Js.Resolved (VChats chats) =>
      Some (get_groups_resume (Js.Resolved chats))
  | AwaitGetChats, Js.Resolved _ => None
  | AwaitGetChats, Js.Rejected err => Some (get_groups_resume (Js.Rejected err))
  end.

Definition remove_nth {A : Type} (i : nat) (l : list A) : list A :=
  (firstn i l ++ skipn (S i) l)%list.

Definition step (e : Event) (w : World) : option (World * list Effect) :=
  match e with
  | OnQr qr => Some (turn (on_qr qr) w)
  | OnAuthenticated => Some (turn on_authenticated w)
  | OnReady now => Some (turn (on_ready now) w)
  | OnMessage msg => Some (turn (on_message msg) w)
  | OnAuthFailure msg => Some (turn (on_auth_failure msg) w)
  | OnDisconnected reason => Some (turn (on_disconnected reason) w)
  | Tick now => Some (turn (watchdog now) w)
  | Http req => Some (turn (serve req) w)
  | Settle i o =>
      match nth_error (pending w) i with
      | None => None
      | Some t =>
          match resume t o with
          | None => None
          | Some m =>
              Some (turn m (set_pending (remove_nth i (pending w)) w))
          end
      end
  | FsChange d s => Some (set_dir d s w, [])
  end.

(** A run: the events served one after the other, the output in order. *)
Fixpoint run (es : list Event) (w : World) : option (World * list Effect) :=
  match es with
  | [] => Some (w, [])
  | e :: rest =>
      match step e w with
      | None => None
      | Some (w1, out1) =>
          match run rest w1 with
          | None => None
          | Some (w2, out2) => Some (w2, (out1 ++ out2)%list)
          end
      end
  end.

(** Start-up: the module registers the watchdog and starts the server,
    whose [listen] callback calls [initializeClient()]. *)
Inductive Startup : Type :=
| SetInterval (ms : Z)
| AppListen.

Definition startup : list Startup := [SetInterval watchdog_period; AppListen].

Definition boot : World * list Effect := turn initializeClient initial_world.

(** The worlds the program can be in. *)
Inductive Reachable : World -> Prop :=
| reach_boot : Reachable (fst boot)
| reach_step (e : Event) (w w' : World) (out : list Effect) :
    Reachable w -> step e w = Some (w', out) -> Reachable w'.

(** Recoveries under way: calls of [hardRestart] parked at one of its two
    [await]s. *)
Definition is_recovery (t : Task) : bool :=
  match t with
  | AwaitDestroy _ | AwaitSleep => true
  | _ => false
  end.

Definition in_flight (w : World) : nat :=
  length (filter is_recovery (pending w)).

(** ** Phases *)

(** The program keeps no phase variable; the phase is read off the flags,
    as the endpoints and the watchdog read it ([isReady] for [Ready]; the
    order of the tests of [GET /auth/qr] for the phases before).  A
    recovery under way shows as [Restarting] once [isReady] is down. *)
Inductive Phase : Type :=
| Uninitialized
| Initializing
| AwaitingQR
| Authenticated
| Ready
| Restarting.

Definition phase (w : World) : Phase :=
  if isReady (vars w) then Ready
  else if (0 <? in_flight w)%nat then Restarting
  else if isAuthenticated (vars w) then Authenticated
  else match qrCodeData (vars w), client (vars w) with
       | Some _, _ => AwaitingQR
       | None, Some _ => Initializing
       | None, None => Uninitialized
       end.


(** ** Vocabulary of the statements *)

(** Events other than the two requests that configure the relay. *)
Definition keeps_config (e : Event) : Prop :=
  match e with
  | Http GetListen | Http (PostWebhookSet _) => False
  | _ => True
  end.

(** At most one recovery is under way, and while one is the guard is up. *)
Definition single_flight (w : World) : Prop :=
  (in_flight w <= 1)%nat /\
  (in_flight w = 1%nat -> restarting (vars w) = true).

(** A run in which the adapter reports [ready] only while no recovery is
    under way. *)
Fixpoint quiet (es : list Event) (w : World) : Prop :=
  match es with
  | [] => True
  | e :: rest =>
      match e with
      | OnReady _ => in_flight w = 0%nat
      | _ => True
      end /\
      match step e w with
      | Some (w1, _) => quiet rest w1
      | None => True
      end
  end.

(** Events other than [ready]. *)
Definition before_ready (e : Event) : Prop :=
  match e with
  | OnReady _ => False
  | _ => True
  end.

(** Calls of [hardRestart] one after the other, as overlapping triggers
    make them. *)
Fixpoint calls (wipes : list bool) (w : World) : World * list Effect :=
  match wipes with
  | [] => (w, [])
  | wipeAuth :: rest =>
      match turn (hardRestart wipeAuth) w with
      | (w1, out1) =>
          match calls rest w1 with
          | (w2, out2) => (w2, (out1 ++ out2)%list)
          end
      end
  end.

(** The line the watchdog prints when it calls [hardRestart]. *)
Definition heartbeat_lost : Effect :=
  Console WarnLevel "Heartbeat lost, restarting...".


(** The output holds a call that starts a send. *)
Definition sends (out : list Effect) : Prop :=
  exists id jid content quoted, In (SendMessage id jid content quoted) out.

(** ** Vocabulary of the further properties *)

(** Events other than [auth_failure]. *)
Definition no_auth_failure (e : Event) : Prop :=
  match e with
  | OnAuthFailure _ => False
  | _ => True
  end.

(** Every recovery parked at [client.destroy()] was started without a
    wipe. *)
Definition no_wipe_pending (w : World) : Prop :=
  ~ In (AwaitDestroy true) (pending w).

(** The output removes a directory. *)
Definition removes (out : list Effect) : Prop :=
  exists path, In (RmSync path) out.

(** The output builds a client. *)
Definition builds (out : list Effect) : Prop :=
  exists id, In (NewClient id) out.

(** The output shuts a client down. *)
Definition destroys (out : list Effect) : Prop :=
  exists id, In (ClientDestroy id) out.

(** A wipe throws [err]: the removal of [.wwebjs_auth] fails with it, or
    that removal succeeds and the removal of [.wwebjs_cache] fails with
    it. *)
Definition wipe_throws (err : string) (w : World) : Prop :=
  auth_dir w = Stuck err \/
  ((forall errno, auth_dir w <> Stuck errno) /\ cache_dir w = Stuck err).

(** * Properties *)

(** ** Proof tools *)

(** Open the handlers down to the state they build. *)
Ltac js_unfold :=
  unfold step, turn, serve, get_health, get_auth_qr, post_send, post_reply,
    get_groups, get_listen, post_webhook_set, send_resume, get_groups_resume,
    watchdog, on_qr, on_qr_resume, on_authenticated, on_ready, on_message,
    on_message_resume, on_auth_failure, on_disconnected, hardRestart,
    hardRestart_after_destroy, hardRestart_after_sleep, initializeClient,
    resetRuntimeState, rmSync, console, not_ready, throw, await, emit, assign,
    read, skip, bind, ret in *.

(** Split on the innermost test the goal is stuck on. *)
Ltac js_case :=
  match goal with
  | |- context [if ?b then _ else _] =>
      lazymatch b with
      | context [match _ with _ => _ end] => fail
      | context [if _ then _ else _] => fail
      | _ => destruct b eqn:?
      end
  | |- context [match ?x with _ => _ end] =>
      lazymatch x with
      | context [match _ with _ => _ end] => fail
      | context [if _ then _ else _] => fail
      | _ => destruct x eqn:?
      end
  end.

Ltac js_run := js_unfold; cbn; repeat (js_case; cbn).

Ltac open_world w :=
  let c := fresh "c" in let q := fresh "q" in let a := fresh "a" in
  let r := fresh "r" in let u := fresh "u" in let l := fresh "l" in
  let t := fresh "t" in let g := fresh "g" in let p := fresh "p" in
  let ad := fresh "ad" in let cd := fresh "cd" in
  destruct w as [[c q a r u l t g] p ad cd].

(** ** Reachable states *)

Lemma reachable_invariant (P : World -> Prop) :
  P (fst boot) ->
  (forall e w w' out, P w -> step e w = Some (w', out) -> P w') ->
  forall w, Reachable w -> P w.
Proof.
  intros H0 Hstep w Hw. induction Hw as [|e w w' out _ IH Hs].
  - exact H0.
  - exact (Hstep e w w' out IH Hs).
Qed.

(** ** Strings *)

Lemma prefix_app (sub s : string) :
  String.prefix sub s = true <-> exists rest, s = sub ++ rest.
Proof.
  revert s; induction sub as [|ch sub IH]; intros s.
  - split; [intros _; exists s; reflexivity | intros _; now destruct s].
  - destruct s as [|ch' s]; cbn.
    + split; [discriminate | intros [rest H]; discriminate].
    + destruct (Ascii.ascii_dec ch ch') as [->|Hne].
      * rewrite IH. split; intros [rest H]; exists rest.
        -- now rewrite H.
        -- now inversion H.
      * split; [discriminate | intros [rest H]; inversion H; congruence].
Qed.

Lemma includes_nil (sub : string) :
  Js.includes "" sub = String.prefix sub "" || false.
Proof. reflexivity. Qed.

Lemma includes_cons (ch : ascii) (s sub : string) :
  Js.includes (String ch s) sub =
  String.prefix sub (String ch s) || Js.includes s sub.
Proof. reflexivity. Qed.

(** [includes] is occurrence as a substring. *)
Lemma includes_substring (s sub : string) :
  Js.includes s sub = true <-> exists before after, s = before ++ sub ++ after.
Proof.
  induction s as [|ch s IH].
  - rewrite includes_nil, orb_false_r, prefix_app. split.
    + intros [rest H]. exists "", rest. exact H.
    + intros [before [after H]]. destruct before; cbn in H.
      * exists after. exact H.
      * discriminate.
  - rewrite includes_cons, orb_true_iff, IH, prefix_app. split.
    + intros [[rest H] | [before [after H]]].
      * exists "", rest. exact H.
      * exists (String ch before), after. cbn. now rewrite H.
    + intros [before [after H]]. destruct before as [|ch' before]; cbn in H.
      * left. exists after. exact H.
      * right. inversion H. exists before, after. reflexivity.
Qed.

Example formatJID_individual :
  formatJID (Some "123456789") = Some "123456789@c.us".
Proof. reflexivity. Qed.

Example formatJID_qualified :
  formatJID (Some "123-456@g.us") = Some "123-456@g.us".
Proof. reflexivity. Qed.

Example formatJID_group :
  formatJID (Some "123-456") = Some "123-456@g.us".
Proof. reflexivity. Qed.

Example formatJID_empty : formatJID (Some "") = None.
Proof. reflexivity. Qed.

Example boot_world :
  boot =
  ({| vars := {| client := Some 0%nat; qrCodeData := None;
                 isAuthenticated := false; isReady := false;
                 webhookUrl := None; isListening := false;
                 lastReadyAt := None; restarting := true |};
      pending := [AwaitInitialize];
      auth_dir := Missing; cache_dir := Missing |},
   [Console LogLevel "Initializing WhatsApp Client..."; NewClient 0;
    ClientInitialize 0]).
Proof. reflexivity. Qed.

(** ** Address formatting *)

Lemma truthy_string_nonempty (n : string) :
  n <> "" -> Js.truthy_string n = true.
Proof.
  intros H. unfold Js.truthy_string.
  destruct (String.eqb_spec n ""); [contradiction | reflexivity].
Qed.

(** C8, as stated, fails on the empty identifier: it holds neither ['@']
    nor ['-'], so the claim sends it to ["@c.us"], and [formatJID] answers
    [null]. *)
Lemma formatJID_empty_is_null :
  Js.includes "" "@" = false /\ Js.includes "" "-" = false /\
  formatJID (Some "") = None /\
  formatJID (Some "") <> Some ("" ++ "@c.us").
Proof. repeat split; discriminate. Qed.

(** C8, amended: on every identifier that is not empty, [formatJID] returns
    the identifier itself when it holds ['@'], else the identifier followed
    by ["@g.us"] when it holds ['-'], else the identifier followed by
    ["@c.us"]; the empty identifier and a missing one give [null]. *)
Theorem formatJID_cases (n : string) :
  n <> "" ->
  (Js.includes n "@" = true -> formatJID (Some n) = Some n) /\
  (Js.includes n "@" = false -> Js.includes n "-" = true ->
   formatJID (Some n) = Some (n ++ "@g.us")) /\
  (Js.includes n "@" = false -> Js.includes n "-" = false ->
   formatJID (Some n) = Some (n ++ "@c.us")) /\
  formatJID (Some "") = None /\ formatJID None = None.
Proof.
  intros Hn. unfold formatJID at 1 2 3.
  rewrite (truthy_string_nonempty n Hn). cbn [negb].
  repeat split.
  - intros ->. reflexivity.
  - intros -> ->. reflexivity.
  - intros -> ->. reflexivity.
Qed.

Lemma formatJID_cases_witness :
  formatJID (Some "123456789") = Some "123456789@c.us" /\
  formatJID (Some "123-456@g.us") = Some "123-456@g.us" /\
  formatJID (Some "123-456") = Some "123-456@g.us".
Proof.
  split; [|split].
  - apply (formatJID_cases "123456789"); [discriminate | reflexivity | reflexivity].
  - apply (formatJID_cases "123-456@g.us"); [discriminate | reflexivity].
  - apply (formatJID_cases "123-456"); [discriminate | reflexivity | reflexivity].
Defined.

(** ** The [ready] event *)

Lemma nth_error_last {A : Type} (l : list A) (x : A) :
  nth_error (l ++ [x]) (length l) = Some x.
Proof. induction l; cbn; auto. Qed.

Lemma remove_nth_last {A : Type} (l : list A) (x : A) :
  remove_nth (length l) (l ++ [x]) = l.
Proof.
  unfold remove_nth. induction l as [|y l IH]; cbn; [reflexivity|].
  cbn in IH. now rewrite IH.
Qed.

Lemma on_ready_world (now : Z) (w : World) :
  step (OnReady now) w =
  Some (set_vars
          {| client := client (vars w); qrCodeData := None;
             isAuthenticated := true; isReady := true;
             webhookUrl := webhookUrl (vars w);
             isListening := isListening (vars w);
             lastReadyAt := Some now; restarting := false |} w,
        [Console LogLevel "CLIENT READY"]).
Proof. open_world w. reflexivity. Qed.






(** ** The watchdog *)

Lemma phase_Ready (w : World) :
  phase w = Ready <-> isReady (vars w) = true.
Proof.
  unfold phase. split.
  - destruct (isReady (vars w)); [reflexivity|].
    repeat js_case; discriminate.
  - intros ->. reflexivity.
Qed.

(** [hardRestart] prints nothing of the watchdog's. *)
Lemma hardRestart_quiet_about_heartbeat (wipeAuth : bool) (w : World) :
  ~ In heartbeat_lost (snd (turn (hardRestart wipeAuth) w)).
Proof.
  open_world w. unfold heartbeat_lost. js_run;
    intros H; repeat (destruct H as [H|H]; [discriminate H|]); exact H.
Qed.

Lemma watchdog_fires (now : Z) (w : World) :
  isReady (vars w) = true ->
  now - to_number (lastReadyAt (vars w)) > stale_after ->
  step (Tick now) w =
  Some (fst (turn (hardRestart false) w),
        heartbeat_lost :: snd (turn (hardRestart false) w)).
Proof.
  intros Hr Hs. apply Z.gtb_gt in Hs.
  open_world w. cbn [vars isReady lastReadyAt] in Hr, Hs. subst.
  unfold heartbeat_lost. js_unfold. cbn -[stale_after Z.gtb Z.sub].
  rewrite Hs. cbn.
  repeat (js_case; cbn); reflexivity.
Qed.

Lemma watchdog_idle (now : Z) (w : World) :
  ~ (isReady (vars w) = true /\
     now - to_number (lastReadyAt (vars w)) > stale_after) ->
  step (Tick now) w = Some (w, []).
Proof.
  intros H. open_world w. cbn [vars isReady lastReadyAt] in H.
  unfold step, turn, watchdog, bind, read, skip, ret.
  cbn -[stale_after Z.gtb Z.sub].
  destruct r; cbn -[stale_after Z.gtb Z.sub]; [|reflexivity].
  destruct (Z.gtb_spec (now - to_number t) stale_after); [|reflexivity].
  exfalso. apply H. split; [reflexivity | lia].
Qed.

(** In the [Ready] phase [lastReadyAt] holds a clock reading. *)
Lemma step_ready_has_lastReadyAt (e : Event) (w w' : World)
  (out : list Effect) :
  (isReady (vars w) = true -> lastReadyAt (vars w) <> None) ->
  step e w = Some (w', out) ->
  isReady (vars w') = true -> lastReadyAt (vars w') <> None.
Proof.
  intros Hw.
  destruct e as [qr| |now|msg|msg|reason|now|req|i o|d s].
  9: { unfold step.
       destruct (nth_error (pending w) i) as [t|]; [|discriminate].
       generalize (remove_nth i (pending w)). intros p'.
       destruct (resume t o) as [m|] eqn:R; [|discriminate].
       open_world w. cbn in Hw.
       destruct t, o as [[]|]; cbn in R; inversion R; subst; clear R;
         js_run; intros H; inversion H; subst; cbn; auto; discriminate. }
  all: try destruct req; try destruct d; open_world w; cbn in Hw; js_run;
    intros H; inversion H; subst; cbn; auto; discriminate.
Qed.

Lemma ready_has_lastReadyAt (w : World) :
  Reachable w -> phase w = Ready ->
  exists t, lastReadyAt (vars w) = Some t.
Proof.
  intros Hw Hp. apply phase_Ready in Hp.
  assert (H : lastReadyAt (vars w) <> None).
  { revert w Hw Hp.
    apply (reachable_invariant
             (fun w => isReady (vars w) = true -> lastReadyAt (vars w) <> None)).
    - discriminate.
    - intros e w w' out Hw Hs.
      apply (step_ready_has_lastReadyAt e w w' out Hw Hs). }
  destruct (lastReadyAt (vars w)) as [t|]; [exists t; reflexivity | contradiction].
Qed.

(** C6: the watchdog is registered with a period of 60 seconds; a tick calls
    [hardRestart(false)] exactly when the phase is [Ready] and the time
    since [lastReadyAt] exceeds 15 minutes, and in every other state it
    leaves the state as it is and produces nothing; in the [Ready] phase
    [lastReadyAt] holds the reading taken when [ready] was served. *)
Theorem watchdog_tick :
  In (SetInterval (60 * 1000)) startup /\
  stale_after = 15 * 60 * 1000 /\
  (forall w : World,
      Reachable w -> phase w = Ready ->
      exists t, lastReadyAt (vars w) = Some t) /\
  forall (w : World) (now : Z),
    let stale := now - to_number (lastReadyAt (vars w)) > 15 * 60 * 1000 in
    exists w' out,
      step (Tick now) w = Some (w', out) /\
      (In heartbeat_lost out <-> phase w = Ready /\ stale) /\
      (phase w = Ready /\ stale ->
       w' = fst (turn (hardRestart false) w) /\
       out = heartbeat_lost :: snd (turn (hardRestart false) w)) /\
      (~ (phase w = Ready /\ stale) -> w' = w /\ out = []).
Proof.
  split; [left; reflexivity|]. split; [reflexivity|].
  split; [exact ready_has_lastReadyAt|].
  intros w now stale. subst stale. setoid_rewrite phase_Ready.
  change (15 * 60 * 1000) with stale_after.
  destruct (isReady (vars w)) eqn:Hr.
  - destruct (Z.gtb_spec (now - to_number (lastReadyAt (vars w))) stale_after)
      as [Hs|Hs].
    + do 2 eexists. split; [apply watchdog_fires; [exact Hr | lia]|].
      split; [|split].
      * split; [intros _; split; [reflexivity | lia] | intros _; left; reflexivity].
      * intros _. split; reflexivity.
      * intros H. exfalso. apply H. split; [reflexivity | lia].
    + exists w, []. split; [apply watchdog_idle; rewrite Hr; intros [_ H]; lia|].
      split; [|split].
      * split; [intros [] | intros [_ H]; lia].
      * intros [_ H]. lia.
      * intros _. split; reflexivity.
  - exists w, []. split; [apply watchdog_idle; rewrite Hr; intros [H _]; discriminate|].
    split; [|split].
    + split; [intros [] | intros [H _]; discriminate].
    + intros [H _]. discriminate.
    + intros _. split; reflexivity.
Qed.

Lemma watchdog_tick_witness :
  exists w' out,
    step (Tick 900001) (set_vars
                          (set_lastReadyAt (Some 0)
                             (set_isReady true (vars (fst boot))))
                          (fst boot)) = Some (w', out) /\
    In heartbeat_lost out.
Proof.
  destruct watchdog_tick as [_ [_ [_ H]]].
  destruct (H (set_vars (set_lastReadyAt (Some 0)
                           (set_isReady true (vars (fst boot)))) (fst boot))
              900001) as [w' [out [Hs [Hi _]]]].
  exists w', out. split; [exact Hs|].
  apply Hi. split; [reflexivity | cbn; lia].
Defined.

(** ** The webhook relay *)

Lemma on_message_relays (msg : Message) (w : World) (u : string) :
  isListening (vars w) = true ->
  webhookUrl (vars w) = Some u -> Js.truthy_string u = true ->
  step (OnMessage msg) w =
  Some (set_pending (pending w ++ [AwaitPost]) w,
        [AxiosPost u (webhook_payload msg)]).
Proof.
  intros Hl Hu Ht. open_world w. cbn in Hl, Hu. subst.
  js_unfold. cbn. rewrite Ht. reflexivity.
Qed.





(** ** What recovery and reinitialisation leave alone *)

Lemma turn_pair (m : M unit) (w : World) :
  turn m w = (fst (turn m w), snd (turn m w)).
Proof. apply surjective_pairing. Qed.

Lemma resume_keeps_config (t : Task) (o : Js.Settled Value) (m : M unit)
  (w : World) :
  resume t o = Some m ->
  webhookUrl (vars (fst (turn m w))) = webhookUrl (vars w) /\
  isListening (vars (fst (turn m w))) = isListening (vars w).
Proof.
  open_world w.
  destruct t, o as [[]|]; cbn; intros H; inversion H; subst; clear H;
    js_run; auto.
Qed.

Lemma step_keeps_config (e : Event) (w w' : World) (out : list Effect) :
  step e w = Some (w', out) -> keeps_config e ->
  webhookUrl (vars w') = webhookUrl (vars w) /\
  isListening (vars w') = isListening (vars w).
Proof.
  destruct e as [qr| |now|msg|msg|reason|now|req|i o|d s].
  9: { unfold step. destruct (nth_error (pending w) i) as [t|]; [|discriminate].
       destruct (resume t o) as [m|] eqn:R; [|discriminate].
       intros H _. inversion H as [H1]. clear H.
       rewrite turn_pair in H1. inversion H1; subst.
       apply (resume_keeps_config t o m
                (set_pending (remove_nth i (pending w)) w) R). }
  9: { cbn. intros H _. inversion H; subst. destruct d; split; reflexivity. }
  all: try destruct req; cbn [keeps_config]; try tauto; intros H _;
    open_world w; revert H; js_run; intros H; inversion H; subst; cbn; auto.
Qed.

Lemma resetRuntimeState_world (w : World) :
  turn resetRuntimeState w =
  (set_vars
     {| client := client (vars w); qrCodeData := None;
        isAuthenticated := false; isReady := false;
        webhookUrl := webhookUrl (vars w);
        isListening := isListening (vars w);
        lastReadyAt := lastReadyAt (vars w);
        restarting := restarting (vars w) |} w, []).
Proof. open_world w. reflexivity. Qed.

(** C10: along any run that holds neither [GET /listen] nor
    [POST /webhook/set] (whatever adapter events, ticks, other requests,
    recoveries and reinitialisations it holds), [webhookUrl] and
    [isListening] keep their values; [resetRuntimeState] clears
    [qrCodeData], [isAuthenticated] and [isReady] and nothing else; and the
    two requests write [isListening] and [webhookUrl]. *)
Theorem config_survives (es : list Event) (w w' : World) (out : list Effect) :
  run es w = Some (w', out) ->
  Forall keeps_config es ->
  (webhookUrl (vars w') = webhookUrl (vars w) /\
   isListening (vars w') = isListening (vars w)) /\
  (forall w0 : World,
      let w1 := fst (turn resetRuntimeState w0) in
      qrCodeData (vars w1) = None /\
      isAuthenticated (vars w1) = false /\
      isReady (vars w1) = false /\
      client (vars w1) = client (vars w0) /\
      webhookUrl (vars w1) = webhookUrl (vars w0) /\
      isListening (vars w1) = isListening (vars w0) /\
      lastReadyAt (vars w1) = lastReadyAt (vars w0) /\
      restarting (vars w1) = restarting (vars w0) /\
      pending w1 = pending w0 /\
      auth_dir w1 = auth_dir w0 /\ cache_dir w1 = cache_dir w0) /\
  (forall w0 : World,
      exists w1 out1,
        step (Http GetListen) w0 = Some (w1, out1) /\
        isListening (vars w1) = true /\
        webhookUrl (vars w1) = webhookUrl (vars w0)) /\
  (forall (w0 : World) (url : option string),
      exists w1 out1,
        step (Http (PostWebhookSet url)) w0 = Some (w1, out1) /\
        webhookUrl (vars w1) = url /\
        isListening (vars w1) = isListening (vars w0)).
Proof.
  intros Hrun Hes. split; [|split; [|split]].
  - revert w w' out Hrun. induction Hes as [|e es He Hes IH]; intros w w' out.
    + cbn. intros H. inversion H; subst. split; reflexivity.
    + cbn [run]. destruct (step e w) as [[w1 out1]|] eqn:Hs; [|discriminate].
      destruct (run es w1) as [[w2 out2]|] eqn:Hr; [|discriminate].
      intros H. inversion H; subst.
      destruct (step_keeps_config e w w1 out1 Hs He) as [H1 H2].
      destruct (IH w1 w' out2 Hr) as [H3 H4].
      split; congruence.
  - intros w0 w1. subst w1. rewrite resetRuntimeState_world. cbn.
    repeat split.
  - intros w0. open_world w0. do 2 eexists. split; [reflexivity|].
    split; reflexivity.
  - intros w0 url. open_world w0. do 2 eexists. split; [reflexivity|].
    split; reflexivity.
Qed.

Lemma config_survives_witness :
  let w :=
    set_vars (set_isListening true
                (set_webhookUrl (Some "http://hook") (vars (fst boot))))
      (fst boot) in
  exists w' out,
    run [OnReady 0; OnAuthFailure "x"; Settle 1 (Js.Rejected "gone");
         Settle 1 (Js.Resolved VUndefined)] w = Some (w', out) /\
    client (vars w') = Some 1%nat /\
    webhookUrl (vars w') = Some "http://hook" /\
    isListening (vars w') = true.
Proof.
  intros w.
  destruct (run [OnReady 0; OnAuthFailure "x"; Settle 1 (Js.Rejected "gone");
                 Settle 1 (Js.Resolved VUndefined)] w)
    as [[w' out]|] eqn:Hrun; [|vm_compute in Hrun; discriminate Hrun].
  exists w', out. split; [reflexivity|].
  split; [vm_compute in Hrun; inversion Hrun; reflexivity|].
  apply (config_survives _ w w' out Hrun). repeat constructor.
Defined.

(** ** The restart guard *)

Lemma flight_app (p : list Task) (t : Task) :
  length (filter is_recovery (p ++ [t])) =
  (length (filter is_recovery p) + if is_recovery t then 1 else 0)%nat.
Proof.
  rewrite filter_app, length_app. cbn.
  destruct (is_recovery t); reflexivity.
Qed.

Lemma flight_remove (p : list Task) (i : nat) (t : Task) :
  nth_error p i = Some t ->
  length (filter is_recovery p) =
  (length (filter is_recovery (remove_nth i p)) +
   if is_recovery t then 1 else 0)%nat.
Proof.
  unfold remove_nth. revert i.
  induction p as [|x p IH]; intros [|i]; cbn; try discriminate.
  - intros H. inversion H; subst.
    destruct (is_recovery t); cbn; lia.
  - intros H. specialize (IH i H). cbn in IH.
    destruct (is_recovery x); cbn; lia.
Qed.

(** With the guard up, [hardRestart] does nothing at all. *)
Lemma hardRestart_guarded (wipeAuth : bool) (w : World) :
  restarting (vars w) = true -> turn (hardRestart wipeAuth) w = (w, []).
Proof.
  intros H. open_world w. cbn in H. subst. reflexivity.
Qed.

(** With the guard down, it raises the guard, asks the client to shut down
    and parks at that [await]. *)
Lemma hardRestart_enters (wipeAuth : bool) (w : World) (id : nat) :
  restarting (vars w) = false -> client (vars w) = Some id ->
  turn (hardRestart wipeAuth) w =
  (set_pending (pending w ++ [AwaitDestroy wipeAuth])
     (set_vars (set_restarting true (vars w)) w),
   [Console LogLevel "Restarting WhatsApp client..."; ClientDestroy id]).
Proof.
  intros H1 H2. open_world w. cbn in H1, H2. subst. reflexivity.
Qed.

Ltac flight_solve :=
  unfold single_flight, in_flight in *; cbn in *;
  rewrite ?flight_app in *; cbn in *;
  rewrite ?Nat.add_0_r in *;
  intuition (try lia; try congruence);
  try match goal with
      | H : _ = 1%nat -> ?x = true |- ?x = true => apply H; lia
      end.

Lemma turn_single_flight (e : Event) (w w' : World) (out : list Effect) :
  match e with
  | OnReady _ => in_flight w = 0%nat
  | Settle _ _ => False
  | _ => True
  end ->
  step e w = Some (w', out) ->
  single_flight w -> single_flight w'.
Proof.
  destruct e as [qr| |now|msg|msg|reason|now|req|i o|d s]; intros He;
    try contradiction; try destruct req; try destruct d;
    open_world w; js_run; intros H; inversion H; subst; clear H;
    intros Hw; flight_solve.
Qed.

Lemma settle_single_flight (i : nat) (o : Js.Settled Value) (w w' : World)
  (out : list Effect) :
  step (Settle i o) w = Some (w', out) ->
  single_flight w -> single_flight w'.
Proof.
  unfold step.
  destruct (nth_error (pending w) i) as [t|] eqn:Hi; [|discriminate].
  apply flight_remove in Hi. revert Hi.
  generalize (remove_nth i (pending w)). intros p' Hi.
  destruct (resume t o) as [m|] eqn:R; [|discriminate].
  open_world w. cbn [pending] in Hi.
  destruct t, o as [[]|]; cbn in R; inversion R; subst; clear R;
    js_run; intros H; inversion H; subst; clear H; intros Hw; flight_solve.
Qed.

Lemma step_single_flight (e : Event) (w w' : World) (out : list Effect) :
  match e with
  | OnReady _ => in_flight w = 0%nat
  | _ => True
  end ->
  step e w = Some (w', out) ->
  single_flight w -> single_flight w'.
Proof.
  destruct e as [qr| |now|msg|msg|reason|now|req|i o|d s]; intros He.
  9: apply settle_single_flight.
  all: match goal with
       | |- step ?e _ = _ -> _ => exact (turn_single_flight e w w' out He)
       end.
Qed.

Lemma run_single_flight (es : list Event) :
  forall (w w' : World) (out : list Effect),
    quiet es w -> run es w = Some (w', out) ->
    single_flight w -> single_flight w'.
Proof.
  induction es as [|e es IH]; intros w w' out.
  - cbn. intros _ H. inversion H; subst. auto.
  - cbn [quiet run]. intros [He Hq].
    destruct (step e w) as [[w1 out1]|] eqn:Hs; [|discriminate].
    destruct (run es w1) as [[w2 out2]|] eqn:Hr; [|discriminate].
    intros H Hw. inversion H; subst.
    apply (IH w1 w' out2 Hq Hr).
    apply (step_single_flight e w w1 out1 He Hs Hw).
Qed.

Lemma step_keeps_client (e : Event) (w w' : World) (out : list Effect) :
  step e w = Some (w', out) ->
  client (vars w) <> None -> client (vars w') <> None.
Proof.
  destruct e as [qr| |now|msg|msg|reason|now|req|i o|d s].
  9: { unfold step.
       destruct (nth_error (pending w) i) as [t|]; [|discriminate].
       generalize (remove_nth i (pending w)). intros p'.
       destruct (resume t o) as [m|] eqn:R; [|discriminate].
       open_world w.
       destruct t, o as [[]|]; cbn in R; inversion R; subst; clear R;
         js_run; intros H; inversion H; subst; cbn; congruence. }
  all: try destruct req; try destruct d; open_world w; js_run;
    intros H; inversion H; subst; cbn; congruence.
Qed.

Lemma run_keeps_client (es : list Event) :
  forall (w w' : World) (out : list Effect),
    run es w = Some (w', out) ->
    client (vars w) <> None -> client (vars w') <> None.
Proof.
  induction es as [|e es IH]; intros w w' out.
  - cbn. intros H. inversion H; subst. auto.
  - cbn [run].
    destruct (step e w) as [[w1 out1]|] eqn:Hs; [|discriminate].
    destruct (run es w1) as [[w2 out2]|] eqn:Hr; [|discriminate].
    intros H Hc. inversion H; subst.
    apply (IH w1 w' out2 Hr). apply (step_keeps_client e w w1 out1 Hs Hc).
Qed.

(** Once one call has gone in, the calls that follow it change nothing. *)
Lemma calls_guarded (wipes : list bool) (w : World) :
  restarting (vars w) = true -> calls wipes w = (w, []).
Proof.
  intros H. induction wipes as [|b wipes IH]; cbn; [reflexivity|].
  rewrite (hardRestart_guarded b w H), IH. reflexivity.
Qed.

(** The guard along a run, from any state that has it in order. *)
Lemma guard_along_run (w : World) (es : list Event) (w' : World)
  (out : list Effect) :
  single_flight w ->
  client (vars w) <> None ->
  quiet es w ->
  run es w = Some (w', out) ->
  single_flight w' /\
  (forall wipeAuth : bool,
      restarting (vars w') = true ->
      turn (hardRestart wipeAuth) w' = (w', [])) /\
  (forall (wipeAuth : bool) (wipes : list bool),
      restarting (vars w') = false ->
      exists id w1,
        client (vars w') = Some id /\
        turn (hardRestart wipeAuth) w' =
        (w1, [Console LogLevel "Restarting WhatsApp client...";
              ClientDestroy id]) /\
        vars w1 = set_restarting true (vars w') /\
        pending w1 = (pending w' ++ [AwaitDestroy wipeAuth])%list /\
        in_flight w1 = 1%nat /\
        calls (wipeAuth :: wipes) w' = turn (hardRestart wipeAuth) w').
Proof.
  intros Hw Hc Hq Hrun.
  pose proof (run_single_flight es w w' out Hq Hrun Hw) as Hw'.
  pose proof (run_keeps_client es w w' out Hrun Hc) as Hc'.
  split; [exact Hw'|]. split.
  - intros wipeAuth. apply hardRestart_guarded.
  - intros wipeAuth wipes Hg.
    destruct (client (vars w')) as [id|] eqn:Hid; [|congruence].
    exists id. eexists. split; [reflexivity|].
    split; [apply (hardRestart_enters wipeAuth w' id Hg Hid)|].
    split; [reflexivity|]. split; [reflexivity|]. split.
    + destruct Hw' as [Hle Hup]. unfold in_flight in *. cbn [pending set_pending].
      rewrite flight_app. cbn.
      destruct (length (filter is_recovery (pending w'))) as [|[|n]];
        [reflexivity | specialize (Hup eq_refl); congruence | lia].
    + cbn [calls]. rewrite (hardRestart_enters wipeAuth w' id Hg Hid).
      rewrite calls_guarded; [reflexivity|].
      destruct w' as [[] ? ? ?]. reflexivity.
Qed.

Lemma boot_single_flight : single_flight (fst boot).
Proof. split; [cbn; lia | intros _; reflexivity]. Qed.

(** C1, as stated, fails in two ways.  A [ready] served while a recovery is
    under way lowers the guard, and the next trigger starts a second
    recovery beside the first.  And before the first [ready] the guard is
    up from [initializeClient], so of the triggers that arrive then none
    goes in. *)
Lemma two_recoveries_in_flight :
  (exists w out,
      run [OnReady 0; OnDisconnected "NAVIGATION"; OnReady 1;
           OnDisconnected "NAVIGATION"] (fst boot) = Some (w, out) /\
      in_flight w = 2%nat /\
      pending w = [AwaitInitialize; AwaitDestroy false; AwaitDestroy false]) /\
  calls [true; false; false] (fst boot) = (fst boot, []).
Proof.
  split; [|vm_compute; reflexivity].
  do 2 eexists. split; [vm_compute; reflexivity|].
  split; vm_compute; reflexivity.
Qed.

(** C1, amended: [hardRestart] tests [restarting] in its first piece, before
    any [await]: with the guard up it returns at once and changes nothing
    (no [destroy], no deletion), with the guard down it raises the guard.
    So along every run from start-up in which [ready] is not served while a
    recovery is under way, at most one recovery is under way at any time,
    and of any batch of overlapping calls made with the guard down exactly
    the first goes in; the others are no-ops. *)
Theorem one_recovery_at_a_time (es : list Event) (w' : World)
  (out : list Effect) :
  quiet es (fst boot) ->
  run es (fst boot) = Some (w', out) ->
  (in_flight w' <= 1)%nat /\
  (in_flight w' = 1%nat -> restarting (vars w') = true) /\
  (forall wipeAuth : bool,
      restarting (vars w') = true ->
      turn (hardRestart wipeAuth) w' = (w', [])) /\
  (forall (wipeAuth : bool) (wipes : list bool),
      restarting (vars w') = false ->
      exists id w1,
        client (vars w') = Some id /\
        turn (hardRestart wipeAuth) w' =
        (w1, [Console LogLevel "Restarting WhatsApp client...";
              ClientDestroy id]) /\
        vars w1 = set_restarting true (vars w') /\
        pending w1 = (pending w' ++ [AwaitDestroy wipeAuth])%list /\
        in_flight w1 = 1%nat /\
        calls (wipeAuth :: wipes) w' = turn (hardRestart wipeAuth) w').
Proof.
  intros Hq Hrun.
  assert (Hc : client (vars (fst boot)) <> None) by discriminate.
  destruct (guard_along_run (fst boot) es w' out boot_single_flight Hc Hq Hrun)
    as [[H1 H2] [H3 H4]].
  split; [exact H1|]. split; [exact H2|]. split; [exact H3 | exact H4].
Qed.

Lemma one_recovery_at_a_time_witness :
  exists w' out,
    run [OnReady 0; OnDisconnected "NAVIGATION"; OnAuthFailure "late";
         Tick 900001; Settle 1 (Js.Resolved VUndefined);
         OnDisconnected "again"] (fst boot) = Some (w', out) /\
    in_flight w' = 1%nat /\
    turn (hardRestart true) w' = (w', []).
Proof.
  destruct (run [OnReady 0; OnDisconnected "NAVIGATION"; OnAuthFailure "late";
                 Tick 900001; Settle 1 (Js.Resolved VUndefined);
                 OnDisconnected "again"] (fst boot))
    as [[w' out]|] eqn:Hrun; [|vm_compute in Hrun; discriminate Hrun].
  exists w', out. split; [reflexivity|].
  assert (Hq : quiet [OnReady 0; OnDisconnected "NAVIGATION";
                      OnAuthFailure "late"; Tick 900001;
                      Settle 1 (Js.Resolved VUndefined);
                      OnDisconnected "again"] (fst boot)).
  { vm_compute. repeat split. }
  destruct (one_recovery_at_a_time _ w' out Hq Hrun) as [_ [_ [Hno _]]].
  split.
  - vm_compute in Hrun. inversion Hrun. reflexivity.
  - apply Hno. vm_compute in Hrun. inversion Hrun. reflexivity.
Defined.

(** ** The recovery routine, piece by piece *)

(** Whatever [client.destroy()] settles to, the routine goes on: the
    [catch] is empty. *)
Lemma destroy_failure_swallowed (wipeAuth : bool) (o : Js.Settled Value) :
  resume (AwaitDestroy wipeAuth) o = Some (hardRestart_after_destroy wipeAuth).
Proof. destruct o; reflexivity. Qed.

(** Without a wipe the second piece only starts the five-second timer. *)
Lemma after_destroy_keep (w : World) :
  turn (hardRestart_after_destroy false) w =
  (set_pending (pending w ++ [AwaitSleep]) w, [SetTimeout 5000]).
Proof. open_world w. reflexivity. Qed.

(** With a wipe, and both removals succeeding (a missing directory counts
    as a success), both directories are removed, in this order, before the
    timer is started. *)
Lemma after_destroy_wipe (w : World) :
  (forall errno, auth_dir w <> Stuck errno) ->
  (forall errno, cache_dir w <> Stuck errno) ->
  turn (hardRestart_after_destroy true) w =
  ({| vars := vars w; pending := (pending w ++ [AwaitSleep])%list;
      auth_dir := Missing; cache_dir := Missing |},
   [Console LogLevel "Clearing auth cache..."; RmSync ".wwebjs_auth";
    RmSync ".wwebjs_cache"; SetTimeout 5000]).
Proof.
  intros Ha Hc. open_world w. cbn in Ha, Hc.
  destruct ad as [| |errno]; [| |destruct (Ha errno eq_refl)];
    (destruct cd as [| |errno]; [| |destruct (Hc errno eq_refl)]);
    reflexivity.
Qed.

(** After the timer the guard is lowered and [initializeClient] runs at
    once: it raises the guard again, resets the three flags and builds and
    starts a new client. *)
Lemma after_sleep_reinitializes (w : World) :
  turn hardRestart_after_sleep w =
  ({| vars :=
        {| client := Some (fresh_client (vars w)); qrCodeData := None;
           isAuthenticated := false; isReady := false;
           webhookUrl := webhookUrl (vars w);
           isListening := isListening (vars w);
           lastReadyAt := lastReadyAt (vars w); restarting := true |};
      pending := (pending w ++ [AwaitInitialize])%list;
      auth_dir := auth_dir w; cache_dir := cache_dir w |},
   [Console LogLevel "Initializing WhatsApp Client...";
    NewClient (fresh_client (vars w));
    ClientInitialize (fresh_client (vars w))]).
Proof. open_world w. reflexivity. Qed.

(** A removal that fails is thrown out of [hardRestart]: the second
    directory is not tried, no timer is started, and the guard stays up. *)
Lemma after_destroy_wipe_stuck (w : World) (errno : string) :
  auth_dir w = Stuck errno ->
  turn (hardRestart_after_destroy true) w =
  (w, [Console LogLevel "Clearing auth cache..."; RmSync ".wwebjs_auth";
       UnhandledRejection errno]).
Proof. intros H. open_world w. cbn in H. subst. reflexivity. Qed.

(** X17: a whole recovery without a wipe: [disconnected] served with the
    guard down, then [client.destroy()] settling either way, then the end
    of the wait, produce in this order the destroy, the five-second timer
    and the construction and start of the next client, with no removal in
    between; the guard is up again at the end and the directories are as
    they were. *)
Lemma recovery_in_order (reason : string) (w : World) (id : nat)
  (o : Js.Settled Value) :
  restarting (vars w) = false ->
  client (vars w) = Some id ->
  let n := length (pending w) in
  exists w',
    run [OnDisconnected reason; Settle n o; Settle n (Js.Resolved VUndefined)]
      w =
    Some (w',
          [Console WarnLevel ("DISCONNECTED: " ++ reason);
           Console LogLevel "Restarting WhatsApp client..."; ClientDestroy id;
           SetTimeout 5000;
           Console LogLevel "Initializing WhatsApp Client...";
           NewClient (S id); ClientInitialize (S id)]) /\
    restarting (vars w') = true /\ client (vars w') = Some (S id) /\
    pending w' = (pending w ++ [AwaitInitialize])%list /\
    auth_dir w' = auth_dir w /\ cache_dir w' = cache_dir w.
Proof.
  intros Hg Hc n. subst n.
  open_world w. cbn in Hg, Hc. subst.
  eexists. cbn [run]. unfold step at 1. js_unfold.
  cbn -[nth_error remove_nth length].
  rewrite nth_error_last. cbn [resume].
  rewrite remove_nth_last. destruct o; cbn -[nth_error remove_nth length];
    rewrite nth_error_last; cbn -[nth_error remove_nth length];
    rewrite remove_nth_last; cbn; (split; [reflexivity|]); repeat split.
Qed.

(** X18: a whole recovery with a wipe, when neither removal fails:
    [auth_failure] served with the guard down, then [client.destroy()]
    settling either way, then the end of the wait, produce in this order
    the destroy, the removal of [.wwebjs_auth], the removal of
    [.wwebjs_cache], the five-second timer and the construction and start
    of the next client; both directories are gone at the end, whether or
    not they existed. *)
Lemma recovery_with_wipe_in_order (msg : string) (w : World) (id : nat)
  (o : Js.Settled Value) :
  restarting (vars w) = false ->
  client (vars w) = Some id ->
  (forall errno, auth_dir w <> Stuck errno) ->
  (forall errno, cache_dir w <> Stuck errno) ->
  let n := length (pending w) in
  exists w',
    run [OnAuthFailure msg; Settle n o; Settle n (Js.Resolved VUndefined)] w =
    Some (w',
          [Console ErrorLevel ("AUTH FAILURE: " ++ msg);
           Console LogLevel "Restarting WhatsApp client..."; ClientDestroy id;
           Console LogLevel "Clearing auth cache..."; RmSync ".wwebjs_auth";
           RmSync ".wwebjs_cache"; SetTimeout 5000;
           Console LogLevel "Initializing WhatsApp Client...";
           NewClient (S id); ClientInitialize (S id)]) /\
    restarting (vars w') = true /\ client (vars w') = Some (S id) /\
    pending w' = (pending w ++ [AwaitInitialize])%list /\
    auth_dir w' = Missing /\ cache_dir w' = Missing.
Proof.
  intros Hg Hc Ha Hd n. subst n.
  open_world w. cbn in Hg, Hc, Ha, Hd. subst.
  eexists. cbn [run]. unfold step at 1. js_unfold.
  cbn -[nth_error remove_nth length].
  rewrite nth_error_last. cbn [resume].
  rewrite remove_nth_last.
  destruct ad as [| |errno]; [| |destruct (Ha errno eq_refl)];
    (destruct cd as [| |errno]; [| |destruct (Hd errno eq_refl)]);
    destruct o; cbn -[nth_error remove_nth length];
    rewrite nth_error_last; cbn -[nth_error remove_nth length];
    rewrite remove_nth_last; cbn; (split; [reflexivity|]); repeat split.
Qed.

(** C5, the code at the failing input: [auth_failure] in the [Ready] phase
    while the removal of [.wwebjs_auth] fails with [EBUSY].  The exception
    leaves [hardRestart]: [.wwebjs_cache] is not tried, the timer is not
    started, [initializeClient] is not called, and the guard stays up, so
    every later call of [hardRestart] is a no-op. *)
Theorem deletion_failure_aborts_recovery :
  exists w out,
    run [OnReady 0; FsChange AuthDir (Stuck "EBUSY");
         FsChange CacheDir Removable; OnAuthFailure "expired";
         Settle 1 (Js.Resolved VUndefined)] (fst boot) = Some (w, out) /\
    out =
    [Console LogLevel "CLIENT READY";
     Console ErrorLevel "AUTH FAILURE: expired";
     Console LogLevel "Restarting WhatsApp client..."; ClientDestroy 0;
     Console LogLevel "Clearing auth cache..."; RmSync ".wwebjs_auth";
     UnhandledRejection "EBUSY"] /\
    restarting (vars w) = true /\
    client (vars w) = Some 0%nat /\
    in_flight w = 0%nat /\
    cache_dir w = Removable /\
    forall wipeAuth : bool, turn (hardRestart wipeAuth) w = (w, []).
Proof.
  do 2 eexists. split; [vm_compute; reflexivity|].
  split; [reflexivity|]. split; [reflexivity|]. split; [reflexivity|].
  split; [reflexivity|]. split; [reflexivity|].
  intros wipeAuth. apply hardRestart_guarded. reflexivity.
Qed.

(** ** Recovery triggers and the guard *)

Lemma on_auth_failure_calls (msg : string) (w : World) :
  step (OnAuthFailure msg) w =
  Some (fst (turn (hardRestart true) w),
        Console ErrorLevel ("AUTH FAILURE: " ++ msg)
          :: snd (turn (hardRestart true) w)).
Proof. open_world w. js_run; reflexivity. Qed.

Lemma on_disconnected_calls (reason : string) (w : World) :
  step (OnDisconnected reason) w =
  Some (fst (turn (hardRestart false) w),
        Console WarnLevel ("DISCONNECTED: " ++ reason)
          :: snd (turn (hardRestart false) w)).
Proof. open_world w. js_run; reflexivity. Qed.

(** Until [ready] is served the guard raised by [initializeClient] stays
    up and no recovery starts. *)
Lemma step_guard_up (e : Event) (w w' : World) (out : list Effect) :
  before_ready e ->
  step e w = Some (w', out) ->
  restarting (vars w) = true /\ in_flight w = 0%nat ->
  restarting (vars w') = true /\ in_flight w' = 0%nat.
Proof.
  unfold in_flight.
  destruct e as [qr| |now|msg|msg|reason|now|req|i o|d s]; cbn [before_ready];
    try contradiction; intros _.
  8: { unfold step.
       destruct (nth_error (pending w) i) as [t|] eqn:Hi; [|discriminate].
       apply flight_remove in Hi. revert Hi.
       generalize (remove_nth i (pending w)). intros p' Hi.
       destruct (resume t o) as [m|] eqn:R; [|discriminate].
       open_world w. cbn [pending] in Hi.
       destruct t, o as [[]|]; cbn in R; inversion R; subst; clear R;
         cbn in Hi; js_run; intros H; inversion H; subst; clear H;
         cbn; rewrite ?flight_app; cbn; intros [Hg Hf]; subst;
         split; try reflexivity; try lia; try discriminate. }
  all: try destruct req; try destruct d; open_world w; js_run;
    intros H; inversion H; subst; clear H; cbn; rewrite ?flight_app; cbn;
    intros [Hg Hf]; split; try assumption; try lia; try discriminate.
Qed.

Lemma run_guard_up (es : list Event) :
  forall (w w' : World) (out : list Effect),
    Forall before_ready es ->
    run es w = Some (w', out) ->
    restarting (vars w) = true /\ in_flight w = 0%nat ->
    restarting (vars w') = true /\ in_flight w' = 0%nat.
Proof.
  induction es as [|e es IH]; intros w w' out Hes.
  - cbn. intros H. inversion H; subst. auto.
  - inversion Hes as [|? ? He Hes']; subst. cbn [run].
    destruct (step e w) as [[w1 out1]|] eqn:Hs; [|discriminate].
    destruct (run es w1) as [[w2 out2]|] eqn:Hr; [|discriminate].
    intros H Hw. inversion H; subst.
    apply (IH w1 w' out2 Hes' Hr).
    apply (step_guard_up e w w1 out1 He Hs Hw).
Qed.

(** With all three flags down the guard is up: the flags are put down
    together only by [resetRuntimeState], under the guard. *)
Lemma step_flags_down_guard_up (e : Event) (w w' : World)
  (out : list Effect) :
  (isReady (vars w) = false -> isAuthenticated (vars w) = false ->
   qrCodeData (vars w) = None -> restarting (vars w) = true) ->
  step e w = Some (w', out) ->
  isReady (vars w') = false -> isAuthenticated (vars w') = false ->
  qrCodeData (vars w') = None -> restarting (vars w') = true.
Proof.
  intros Hw.
  destruct e as [qr| |now|msg|msg|reason|now|req|i o|d s].
  9: { unfold step.
       destruct (nth_error (pending w) i) as [t|]; [|discriminate].
       generalize (remove_nth i (pending w)). intros p'.
       destruct (resume t o) as [m|] eqn:R; [|discriminate].
       open_world w. cbn in Hw.
       destruct t, o as [[]|]; cbn in R; inversion R; subst; clear R;
         js_run; intros H; inversion H; subst; cbn; auto; discriminate. }
  all: try destruct req; try destruct d; open_world w; cbn in Hw; js_run;
    intros H; inversion H; subst; cbn; auto; discriminate.
Qed.

Lemma initializing_guard_up (w : World) :
  Reachable w -> phase w = Initializing -> restarting (vars w) = true.
Proof.
  intros Hw Hp.
  assert (H : isReady (vars w) = false -> isAuthenticated (vars w) = false ->
              qrCodeData (vars w) = None -> restarting (vars w) = true).
  { revert w Hw Hp. intros w Hw _. revert w Hw.
    apply (reachable_invariant
             (fun w => isReady (vars w) = false ->
                       isAuthenticated (vars w) = false ->
                       qrCodeData (vars w) = None ->
                       restarting (vars w) = true)).
    - reflexivity.
    - intros e w w' out Hw Hs.
      apply (step_flags_down_guard_up e w w' out Hw Hs). }
  unfold phase in Hp.
  destruct (isReady (vars w)); [discriminate|].
  destruct (0 <? in_flight w)%nat; [discriminate|].
  destruct (isAuthenticated (vars w)); [discriminate|].
  destruct (qrCodeData (vars w)); [discriminate|].
  apply H; reflexivity.
Qed.

(** C2, as stated, fails in the [Initializing] phase: right after start-up
    the guard is up, and [auth_failure] and [disconnected] leave the state
    as it is; no recovery starts, with or without a wipe. *)
Lemma triggers_ignored_while_initializing :
  phase (fst boot) = Initializing /\
  step (OnAuthFailure "expired") (fst boot) =
  Some (fst boot, [Console ErrorLevel "AUTH FAILURE: expired"]) /\
  step (OnDisconnected "NAVIGATION") (fst boot) =
  Some (fst boot, [Console WarnLevel "DISCONNECTED: NAVIGATION"]).
Proof. split; [|split]; vm_compute; reflexivity. Qed.

(** C2, amended: in every state the [auth_failure] handler calls
    [hardRestart(true)] and the [disconnected] handler calls
    [hardRestart(false)]; the call starts a recovery (with that wipe flag)
    when the guard is down and is a no-op when it is up; and since
    [initializeClient] raises the guard and only [ready] lowers it, from
    start-up until the first [ready] is served the guard is up and no
    recovery starts, and in every reachable state in the [Initializing]
    phase the guard is up. *)
Theorem recovery_triggers_gated :
  (forall (w : World) (msg : string),
      step (OnAuthFailure msg) w =
      Some (fst (turn (hardRestart true) w),
            Console ErrorLevel ("AUTH FAILURE: " ++ msg)
              :: snd (turn (hardRestart true) w))) /\
  (forall (w : World) (reason : string),
      step (OnDisconnected reason) w =
      Some (fst (turn (hardRestart false) w),
            Console WarnLevel ("DISCONNECTED: " ++ reason)
              :: snd (turn (hardRestart false) w))) /\
  (forall (w : World) (wipeAuth : bool) (id : nat),
      restarting (vars w) = false -> client (vars w) = Some id ->
      turn (hardRestart wipeAuth) w =
      (set_pending (pending w ++ [AwaitDestroy wipeAuth])
         (set_vars (set_restarting true (vars w)) w),
       [Console LogLevel "Restarting WhatsApp client..."; ClientDestroy id])) /\
  (forall (w : World) (wipeAuth : bool),
      restarting (vars w) = true ->
      turn (hardRestart wipeAuth) w = (w, [])) /\
  (forall (es : list Event) (w : World) (out : list Effect),
      Forall before_ready es ->
      run es (fst boot) = Some (w, out) ->
      restarting (vars w) = true /\ in_flight w = 0%nat) /\
  (forall w : World,
      Reachable w -> phase w = Initializing -> restarting (vars w) = true).
Proof.
  split; [intros w msg; apply on_auth_failure_calls|].
  split; [intros w reason; apply on_disconnected_calls|].
  split; [intros w wipeAuth id; apply hardRestart_enters|].
  split; [intros w wipeAuth; apply hardRestart_guarded|].
  split; [|exact initializing_guard_up].
  intros es w out Hes Hrun.
  apply (run_guard_up es (fst boot) w out Hes Hrun).
  split; reflexivity.
Qed.

Lemma recovery_triggers_gated_witness :
  exists w out,
    run [OnQr "ABC"; Settle 1 (Js.Resolved (VString "data:x"));
         OnAuthFailure "expired"; OnAuthenticated; OnDisconnected "LOGOUT";
         Tick 1000000] (fst boot) = Some (w, out) /\
    restarting (vars w) = true /\ in_flight w = 0%nat.
Proof.
  destruct (run [OnQr "ABC"; Settle 1 (Js.Resolved (VString "data:x"));
                 OnAuthFailure "expired"; OnAuthenticated;
                 OnDisconnected "LOGOUT"; Tick 1000000] (fst boot))
    as [[w out]|] eqn:Hrun; [|vm_compute in Hrun; discriminate Hrun].
  exists w, out. split; [reflexivity|].
  destruct recovery_triggers_gated as [_ [_ [_ [_ [H _]]]]].
  refine (H _ w out _ Hrun).
  repeat constructor.
Defined.

(** ** The QR payload and the phase *)

(** While [isReady] is up there is no QR payload. *)
Lemma step_ready_no_qr (e : Event) (w w' : World) (out : list Effect) :
  (isReady (vars w) = true -> qrCodeData (vars w) = None) ->
  step e w = Some (w', out) ->
  isReady (vars w') = true -> qrCodeData (vars w') = None.
Proof.
  intros Hw.
  destruct e as [qr| |now|msg|msg|reason|now|req|i o|d s].
  9: { unfold step.
       destruct (nth_error (pending w) i) as [t|]; [|discriminate].
       generalize (remove_nth i (pending w)). intros p'.
       destruct (resume t o) as [m|] eqn:R; [|discriminate].
       open_world w. cbn in Hw.
       destruct t, o as [[]|]; cbn in R; inversion R; subst; clear R;
         js_run; intros H; inversion H; subst; cbn; auto; discriminate. }
  all: try destruct req; try destruct d; open_world w; cbn in Hw; js_run;
    intros H; inversion H; subst; cbn; auto; discriminate.
Qed.

Lemma ready_no_qr (w : World) :
  Reachable w -> isReady (vars w) = true -> qrCodeData (vars w) = None.
Proof.
  revert w.
  apply (reachable_invariant
           (fun w => isReady (vars w) = true -> qrCodeData (vars w) = None)).
  - discriminate.
  - intros e w w' out Hw Hs. apply (step_ready_no_qr e w w' out Hw Hs).
Qed.

Lemma on_authenticated_world (w : World) :
  step OnAuthenticated w =
  Some (set_vars (set_isAuthenticated true (vars w)) w,
        [Console LogLevel "AUTHENTICATED"]).
Proof. open_world w. reflexivity. Qed.

(** C3, as stated, fails after [qr] and [authenticated]: the phase has left
    [AwaitingQR] and the payload is still there. *)
Lemma qr_kept_after_authenticated :
  exists w out,
    run [OnQr "ABC"; Settle 1 (Js.Resolved (VString "data:image/png;base64,QUJD"));
         OnAuthenticated] (fst boot) = Some (w, out) /\
    phase w = Authenticated /\
    qrCodeData (vars w) = Some "data:image/png;base64,QUJD".
Proof.
  do 2 eexists. split; [vm_compute; reflexivity|].
  split; vm_compute; reflexivity.
Qed.

(** C3, amended: in every reachable state, the phase [AwaitingQR] implies a
    QR payload, the phase [Ready] implies none, and a payload implies one
    of the phases [AwaitingQR], [Authenticated] and [Restarting]; [ready]
    and [resetRuntimeState] clear the payload, [authenticated] leaves it as
    it is. *)
Theorem qr_payload_and_phase (w : World) :
  Reachable w ->
  (phase w = AwaitingQR -> qrCodeData (vars w) <> None) /\
  (phase w = Ready -> qrCodeData (vars w) = None) /\
  (qrCodeData (vars w) <> None ->
   phase w = AwaitingQR \/ phase w = Authenticated \/ phase w = Restarting) /\
  (forall now, exists w' out,
      step (OnReady now) w = Some (w', out) /\ qrCodeData (vars w') = None) /\
  qrCodeData (vars (fst (turn resetRuntimeState w))) = None /\
  (exists w' out,
      step OnAuthenticated w = Some (w', out) /\
      qrCodeData (vars w') = qrCodeData (vars w) /\
      isAuthenticated (vars w') = true).
Proof.
  intros Hw. pose proof (ready_no_qr w Hw) as Hinv.
  split; [|split; [|split; [|split; [|split]]]].
  - unfold phase. destruct (isReady (vars w)); [discriminate|].
    destruct (0 <? in_flight w)%nat; [discriminate|].
    destruct (isAuthenticated (vars w)); [discriminate|].
    destruct (qrCodeData (vars w)); [discriminate|].
    destruct (client (vars w)); discriminate.
  - intros H. apply Hinv. apply phase_Ready. exact H.
  - unfold phase. destruct (isReady (vars w)).
    + rewrite (Hinv eq_refl). intros H. contradiction.
    + destruct (0 <? in_flight w)%nat; [auto|].
      destruct (isAuthenticated (vars w)); [auto|].
      destruct (qrCodeData (vars w)); [auto|]. intros H. contradiction.
  - intros now. do 2 eexists. rewrite on_ready_world.
    split; reflexivity.
  - rewrite resetRuntimeState_world. reflexivity.
  - do 2 eexists. rewrite on_authenticated_world.
    split; [reflexivity|]. destruct w as [[] ? ? ?]. split; reflexivity.
Qed.

Lemma qr_payload_and_phase_witness :
  exists w out,
    run [OnQr "ABC"; Settle 1 (Js.Resolved (VString "data:x"))] (fst boot) =
    Some (w, out) /\
    phase w = AwaitingQR /\ qrCodeData (vars w) <> None.
Proof.
  exists (set_vars (set_qrCodeData (Some "data:x") (vars (fst boot))) (fst boot)).
  eexists. split; [vm_compute; reflexivity|].
  split; [vm_compute; reflexivity|].
  apply qr_payload_and_phase; [|vm_compute; reflexivity].
  apply (reach_step (Settle 1 (Js.Resolved (VString "data:x")))
           (set_pending [AwaitInitialize; AwaitToDataURL] (fst boot)) _ []).
  - apply (reach_step (OnQr "ABC") (fst boot) _
             [Console LogLevel "QR RECEIVED"; ToDataURL "ABC"]).
    + apply reach_boot.
    + vm_compute. reflexivity.
  - vm_compute. reflexivity.
Defined.

(** ** The readiness test of [/send] and [/reply] *)

Lemma post_send_rejected (w : World) (to message : option string) :
  isReady (vars w) = false ->
  step (Http (PostSend to message)) w = Some (w, [not_ready]).
Proof. intros H. open_world w. cbn in H. subst. reflexivity. Qed.

Lemma post_send_proceeds (w : World) (to message : option string) :
  isReady (vars w) = true ->
  step (Http (PostSend to message)) w =
  Some (set_pending (pending w ++ [AwaitSendMessage]) w,
        [SendMessage (client (vars w)) (formatJID to) message None]).
Proof. intros H. open_world w. cbn in H. subst. reflexivity. Qed.

Lemma post_reply_rejected (w : World) (chatId messageId replyText : option string) :
  isReady (vars w) = false ->
  step (Http (PostReply chatId messageId replyText)) w = Some (w, [not_ready]).
Proof. intros H. open_world w. cbn in H. subst. reflexivity. Qed.

Lemma post_reply_proceeds (w : World) (chatId messageId replyText : option string) :
  isReady (vars w) = true ->
  step (Http (PostReply chatId messageId replyText)) w =
  Some (set_pending (pending w ++ [AwaitSendMessage]) w,
        [SendMessage (client (vars w)) chatId replyText (Some messageId)]).
Proof. intros H. open_world w. cbn in H. subst. reflexivity. Qed.

(** C7, as stated, fails while a recovery that began in the [Ready] phase is
    under way: the guard is up and the client is being destroyed, yet
    [/send] and [/reply] answer no 503 and call [sendMessage]. *)
Lemma send_not_rejected_during_recovery :
  exists w out,
    run [OnReady 0; OnDisconnected "NAVIGATION"] (fst boot) = Some (w, out) /\
    in_flight w = 1%nat /\
    restarting (vars w) = true /\
    In (ClientDestroy 0) out /\
    step (Http (PostSend (Some "123456789") (Some "hi"))) w =
    Some (set_pending (pending w ++ [AwaitSendMessage]) w,
          [SendMessage (Some 0%nat) (Some "123456789@c.us") (Some "hi") None]) /\
    step (Http (PostReply (Some "1@c.us") (Some "m1") (Some "hi"))) w =
    Some (set_pending (pending w ++ [AwaitSendMessage]) w,
          [SendMessage (Some 0%nat) (Some "1@c.us") (Some "hi")
             (Some (Some "m1"))]).
Proof.
  do 2 eexists. split; [vm_compute; reflexivity|].
  split; [vm_compute; reflexivity|]. split; [vm_compute; reflexivity|].
  split; [vm_compute; tauto|]. split; vm_compute; reflexivity.
Qed.

(** C7, amended: for every payload, [/send] and [/reply] answer 503 "Client
    not ready", and do nothing else, whenever [isReady] is false, that is
    in every phase other than [Ready]; they go on to [sendMessage] only
    when [isReady] is true.  A recovery under way does not by itself make
    them answer 503: [isReady] stays as it was until [initializeClient]
    resets it. *)
Theorem send_reply_gate (w : World) :
  (phase w <> Ready <-> isReady (vars w) = false) /\
  (forall to message : option string,
      (phase w <> Ready ->
       step (Http (PostSend to message)) w =
       Some (w, [Respond 503 (ErrorBody "Client not ready")])) /\
      (phase w = Ready ->
       step (Http (PostSend to message)) w =
       Some (set_pending (pending w ++ [AwaitSendMessage]) w,
             [SendMessage (client (vars w)) (formatJID to) message None]))) /\
  (forall chatId messageId replyText : option string,
      (phase w <> Ready ->
       step (Http (PostReply chatId messageId replyText)) w =
       Some (w, [Respond 503 (ErrorBody "Client not ready")])) /\
      (phase w = Ready ->
       step (Http (PostReply chatId messageId replyText)) w =
       Some (set_pending (pending w ++ [AwaitSendMessage]) w,
             [SendMessage (client (vars w)) chatId replyText
                (Some messageId)]))) /\
  (forall wipeAuth : bool,
      isReady (vars (fst (turn (hardRestart wipeAuth) w))) = isReady (vars w) /\
      isReady (vars (fst (turn (hardRestart_after_destroy wipeAuth) w))) =
      isReady (vars w)).
Proof.
  assert (Hp : phase w <> Ready <-> isReady (vars w) = false).
  { rewrite phase_Ready. destruct (isReady (vars w)); split; congruence. }
  split; [exact Hp|]. split; [|split].
  - intros to message. split.
    + intros H. apply post_send_rejected. apply Hp. exact H.
    + intros H. apply post_send_proceeds. apply phase_Ready. exact H.
  - intros chatId messageId replyText. split.
    + intros H. apply post_reply_rejected. apply Hp. exact H.
    + intros H. apply post_reply_proceeds. apply phase_Ready. exact H.
  - intros wipeAuth. open_world w. split; js_run; reflexivity.
Qed.

Lemma send_reply_gate_witness :
  step (Http (PostSend (Some "123456789") (Some "hi"))) (fst boot) =
  Some (fst boot, [Respond 503 (ErrorBody "Client not ready")]).
Proof.
  destruct (send_reply_gate (fst boot)) as [_ [H _]].
  apply (H (Some "123456789") (Some "hi")).
  vm_compute. discriminate.
Defined.

(** * Further properties *)

(** ** [formatJID] *)

Lemma includes_appended (s sub rest : string) :
  Js.includes (s ++ sub ++ rest) sub = true.
Proof. apply includes_substring. exists s, rest. reflexivity. Qed.

Lemma includes_nonempty (s sub : string) :
  sub <> "" -> Js.includes s sub = true -> s <> "".
Proof.
  intros Hsub H ->. rewrite includes_nil in H.
  destruct sub; [contradiction | discriminate].
Qed.

Lemma no_at_sign_no_group_suffix (n : string) :
  Js.includes n "@" = false ->
  Js.includes (n ++ "@c.us") "@g.us" = false.
Proof.
  induction n as [|c n IH]; [reflexivity|].
  rewrite includes_cons. change (String c n ++ "@c.us") with (String c (n ++ "@c.us")).
  rewrite includes_cons. cbn [String.prefix].
  destruct (ascii_dec "@" c) as [_|_].
  - replace (String.prefix "" n) with true by (destruct n; reflexivity).
    discriminate.
  - cbn [orb]. exact IH.
Qed.

(** X1: an address that [formatJID] returns holds ['@'] and is a fixed point
    of [formatJID]: formatting it again returns it unchanged. *)
Theorem formatJID_idempotent (number : option string) (jid : string) :
  formatJID number = Some jid ->
  Js.includes jid "@" = true /\ formatJID (Some jid) = Some jid.
Proof.
  intros H.
  assert (Hat : Js.includes jid "@" = true).
  { destruct number as [n|]; [|discriminate]. unfold formatJID in H.
    destruct (negb (Js.truthy_string n)); [discriminate|].
    destruct (Js.includes n "@") eqn:Hn.
    - inversion H; subst. exact Hn.
    - destruct (Js.includes n "-"); inversion H; subst.
      + apply (includes_appended n "@" "g.us").
      + apply (includes_appended n "@" "c.us"). }
  split; [exact Hat|].
  unfold formatJID.
  rewrite truthy_string_nonempty, Hat; [reflexivity|].
  apply (includes_nonempty jid "@"); [discriminate | exact Hat].
Qed.

Lemma formatJID_idempotent_witness :
  Js.includes "123-456@g.us" "@" = true /\
  formatJID (Some "123-456@g.us") = Some "123-456@g.us".
Proof. apply (formatJID_idempotent (Some "123-456")). reflexivity. Defined.

(** X2: for an identifier without ['@'], the address [formatJID] builds is
    taken for a group by the test of the message handler
    ([from.includes('@g.us')]) exactly when the identifier holds ['-']. *)
Theorem formatJID_group_detected (n jid : string) (msg : Message) :
  formatJID (Some n) = Some jid ->
  Js.includes n "@" = false ->
  msg_from msg = jid ->
  isGroup (webhook_payload msg) = Js.includes n "-".
Proof.
  intros H Hat Hfrom. cbn [webhook_payload isGroup]. rewrite Hfrom.
  unfold formatJID in H.
  destruct (negb (Js.truthy_string n)); [discriminate|].
  rewrite Hat in H.
  destruct (Js.includes n "-"); inversion H; subst.
  - apply (includes_appended n "@g.us" "").
  - apply no_at_sign_no_group_suffix. exact Hat.
Qed.

Lemma formatJID_group_detected_witness :
  isGroup (webhook_payload (mkMessage "123-456@g.us" "hi" 0 false)) = true /\
  isGroup (webhook_payload (mkMessage "123456789@c.us" "hi" 0 false)) = false.
Proof.
  split.
  - apply (formatJID_group_detected "123-456" "123-456@g.us");
      reflexivity.
  - apply (formatJID_group_detected "123456789" "123456789@c.us");
      reflexivity.
Defined.

(** ** The read-only endpoints *)

(** [isReady] is never up without [isAuthenticated]. *)
Lemma step_ready_authenticated (e : Event) (w w' : World)
  (out : list Effect) :
  (isReady (vars w) = true -> isAuthenticated (vars w) = true) ->
  step e w = Some (w', out) ->
  isReady (vars w') = true -> isAuthenticated (vars w') = true.
Proof.
  intros Hw.
  destruct e as [qr| |now|msg|msg|reason|now|req|i o|d s].
  9: { unfold step.
       destruct (nth_error (pending w) i) as [t|]; [|discriminate].
       generalize (remove_nth i (pending w)). intros p'.
       destruct (resume t o) as [m|] eqn:R; [|discriminate].
       open_world w. cbn in Hw.
       destruct t, o as [[]|]; cbn in R; inversion R; subst; clear R;
         js_run; intros H; inversion H; subst; cbn; auto; discriminate. }
  all: try destruct req; try destruct d; open_world w; cbn in Hw; js_run;
    intros H; inversion H; subst; cbn; auto; discriminate.
Qed.

Lemma ready_authenticated (w : World) :
  Reachable w -> isReady (vars w) = true -> isAuthenticated (vars w) = true.
Proof.
  revert w.
  apply (reachable_invariant
           (fun w => isReady (vars w) = true ->
                     isAuthenticated (vars w) = true)).
  - discriminate.
  - intros e w w' out Hw Hs. apply (step_ready_authenticated e w w' out Hw Hs).
Qed.

(** X3: [GET /auth/qr] changes nothing and gives one answer: the stored QR
    payload exactly when [isAuthenticated] is false and a non-empty payload
    is stored; "already authenticated" whenever [isAuthenticated] is true,
    payload or not; 503 exactly when [isAuthenticated] is false and no
    (or an empty) payload is stored. *)
Theorem auth_qr_answer (w : World) :
  exists status body,
    step (Http GetAuthQr) w = Some (w, [Respond status body]) /\
    (forall data,
        body = QrBody data <->
        isAuthenticated (vars w) = false /\
        qrCodeData (vars w) = Some data /\ data <> "") /\
    (isAuthenticated (vars w) = true ->
     status = 200 /\ body = MessageBody "Client already authenticated") /\
    (status = 503 <->
     isAuthenticated (vars w) = false /\ Js.truthy (qrCodeData (vars w)) = false).
Proof.
  open_world w. cbn [vars isAuthenticated qrCodeData].
  destruct a.
  - do 2 eexists. split; [reflexivity|]. split; [|split].
    + intros data. split; [discriminate | intros [H _]; discriminate].
    + intros _. split; reflexivity.
    + split; [discriminate | intros [H _]; discriminate].
  - destruct q as [data|].
    + destruct (String.eqb_spec data "") as [->|Hne].
      * do 2 eexists. split; [reflexivity|]. split; [|split].
        -- intros d. split; [discriminate|].
           intros [_ [H Hd]]. inversion H; subst. contradiction.
        -- discriminate.
        -- split; [intros _; split; reflexivity | reflexivity].
      * exists 200, (QrBody data). split.
        { js_unfold. cbn. unfold Js.truthy_string.
          destruct (String.eqb_spec data ""); [contradiction | reflexivity]. }
        split; [|split].
        -- intros d. split.
           ++ intros H. inversion H; subst. repeat split. exact Hne.
           ++ intros [_ [H _]]. inversion H; subst. reflexivity.
        -- discriminate.
        -- split; [discriminate|]. intros [_ H]. cbn in H.
           unfold Js.truthy_string in H.
           destruct (String.eqb_spec data ""); [contradiction | discriminate].
    + do 2 eexists. split; [reflexivity|]. split; [|split].
      * intros d. split; [discriminate | intros [_ [H _]]; discriminate].
      * discriminate.
      * split; [intros _; split; reflexivity | reflexivity].
Qed.

Lemma health_world (uptime : Z) (now : string) (w : World) :
  step (Http (GetHealth uptime now)) w =
  Some (w, [Respond 200
              (HealthBody (if isReady (vars w) then "connected"
                           else "disconnected")
                 (isAuthenticated (vars w)) uptime now)]).
Proof. open_world w. reflexivity. Qed.

(** X4: in every reachable state [GET /health] changes nothing and reports
    "connected" exactly when [isReady] is true, and never "connected"
    together with [authenticated: false]. *)
Theorem health_report (w : World) (uptime : Z) (now : string) :
  Reachable w ->
  exists status authenticated,
    step (Http (GetHealth uptime now)) w =
    Some (w, [Respond 200 (HealthBody status authenticated uptime now)]) /\
    (status = "connected" <-> isReady (vars w) = true) /\
    (status = "disconnected" <-> isReady (vars w) = false) /\
    authenticated = isAuthenticated (vars w) /\
    (status = "connected" -> authenticated = true).
Proof.
  intros Hw. pose proof (ready_authenticated w Hw) as Hinv.
  do 2 eexists. split; [apply health_world|].
  destruct (isReady (vars w)).
  - split; [split; reflexivity|]. split; [split; discriminate|].
    split; [reflexivity|]. intros _. apply Hinv. reflexivity.
  - split; [split; discriminate|]. split; [split; reflexivity|].
    split; [reflexivity|]. discriminate.
Qed.

Lemma health_report_witness :
  exists status authenticated,
    step (Http (GetHealth 12 "2026-01-01T00:00:00.000Z")) (fst boot) =
    Some (fst boot,
          [Respond 200
             (HealthBody status authenticated 12 "2026-01-01T00:00:00.000Z")]) /\
    status = "disconnected".
Proof.
  destruct (health_report (fst boot) 12 "2026-01-01T00:00:00.000Z" reach_boot)
    as [status [authenticated [Hs [_ [Hd _]]]]].
  exists status, authenticated. split; [exact Hs|].
  apply Hd. reflexivity.
Defined.

(** ** [GET /groups] *)

Lemma get_groups_rejected (w : World) :
  isReady (vars w) = false -> step (Http GetGroups) w = Some (w, [not_ready]).
Proof. intros H. open_world w. cbn in H. subst. reflexivity. Qed.

Lemma get_groups_proceeds (w : World) :
  isReady (vars w) = true ->
  step (Http GetGroups) w =
  Some (set_pending (pending w ++ [AwaitGetChats]) w,
        [GetChats (client (vars w))]).
Proof. intros H. open_world w. cbn in H. subst. reflexivity. Qed.

Lemma get_groups_resolved (i : nat) (chats : list Chat) (w : World) :
  nth_error (pending w) i = Some AwaitGetChats ->
  step (Settle i (Js.Resolved (VChats chats))) w =
  Some (set_pending (remove_nth i (pending w)) w,
        [Respond 200
           (GroupsBody
              (map (fun c => (chat_id c, chat_name c))
                 (filter chat_isGroup chats)))]).
Proof. intros H. unfold step. rewrite H. open_world w. reflexivity. Qed.

Lemma get_groups_failed (i : nat) (err : string) (w : World) :
  nth_error (pending w) i = Some AwaitGetChats ->
  step (Settle i (Js.Rejected err)) w =
  Some (set_pending (remove_nth i (pending w)) w,
        [Respond 500 (ErrorBody err)]).
Proof. intros H. unfold step. rewrite H. open_world w. reflexivity. Qed.

(** X5: [GET /groups] answers 503 without calling the adapter while
    [isReady] is false and calls [getChats] on the current client
    otherwise.  When [getChats] resolves, the answer lists exactly the
    chats that are groups, as pairs of id and name, in the order received;
    when it rejects, the answer is 500 with the error.  No variable
    changes either way. *)
Theorem groups_answer (w : World) :
  (isReady (vars w) = false ->
   step (Http GetGroups) w =
   Some (w, [Respond 503 (ErrorBody "Client not ready")])) /\
  (isReady (vars w) = true ->
   step (Http GetGroups) w =
   Some (set_pending (pending w ++ [AwaitGetChats]) w,
         [GetChats (client (vars w))])) /\
  (forall (i : nat) (chats : list Chat),
      nth_error (pending w) i = Some AwaitGetChats ->
      exists w' groups,
        step (Settle i (Js.Resolved (VChats chats))) w =
        Some (w', [Respond 200 (GroupsBody groups)]) /\
        vars w' = vars w /\
        (forall id name,
            In (id, name) groups <->
            exists c, In c chats /\ chat_isGroup c = true /\
                      chat_id c = id /\ chat_name c = name) /\
        (length groups <= length chats)%nat /\
        groups =
        map (fun c => (chat_id c, chat_name c)) (filter chat_isGroup chats)) /\
  (forall (i : nat) (err : string),
      nth_error (pending w) i = Some AwaitGetChats ->
      exists w',
        step (Settle i (Js.Rejected err)) w =
        Some (w', [Respond 500 (ErrorBody err)]) /\
        vars w' = vars w).
Proof.
  split; [apply get_groups_rejected|]. split; [apply get_groups_proceeds|].
  split.
  - intros i chats Hi. do 2 eexists.
    split; [apply (get_groups_resolved i chats w Hi)|].
    split; [reflexivity|]. split; [|split; [|reflexivity]].
    + intros id name. rewrite in_map_iff. split.
      * intros [c [Hc Hin]]. apply filter_In in Hin. destruct Hin as [Hin Hg].
        inversion Hc; subst. exists c. repeat split; assumption.
      * intros [c [Hin [Hg [Hid Hname]]]]. exists c. subst.
        split; [reflexivity|]. apply filter_In. split; assumption.
    + rewrite length_map. apply filter_length_le.
  - intros i err Hi. eexists.
    split; [apply (get_groups_failed i err w Hi) | reflexivity].
Qed.

Lemma groups_answer_witness :
  exists w' groups,
    step (Settle 1 (Js.Resolved
                      (VChats [mkChat "1-2@g.us" "Team" true;
                               mkChat "3@c.us" "Ann" false;
                               mkChat "4-5@g.us" "Club" true])))
      (set_pending [AwaitInitialize; AwaitGetChats] (fst boot)) =
    Some (w', [Respond 200 (GroupsBody groups)]) /\
    groups = [("1-2@g.us", "Team"); ("4-5@g.us", "Club")].
Proof.
  destruct (groups_answer (set_pending [AwaitInitialize; AwaitGetChats]
                             (fst boot))) as [_ [_ [H _]]].
  destruct (H 1%nat [mkChat "1-2@g.us" "Team" true;
                     mkChat "3@c.us" "Ann" false;
                     mkChat "4-5@g.us" "Club" true] eq_refl)
    as [w' [groups [Hs [_ [_ [_ Hg]]]]]].
  exists w', groups. split; [exact Hs | exact Hg].
Defined.

(** ** What requests leave alone *)

(** X6: no request touches the session: [client], [qrCodeData],
    [isAuthenticated], [isReady], [lastReadyAt] and [restarting] keep their
    values, the directories and the recoveries under way are as before, and
    the request neither destroys nor builds a client nor removes a
    directory. *)
Theorem request_leaves_session (req : Request) (w w' : World)
  (out : list Effect) :
  step (Http req) w = Some (w', out) ->
  client (vars w') = client (vars w) /\
  qrCodeData (vars w') = qrCodeData (vars w) /\
  isAuthenticated (vars w') = isAuthenticated (vars w) /\
  isReady (vars w') = isReady (vars w) /\
  lastReadyAt (vars w') = lastReadyAt (vars w) /\
  restarting (vars w') = restarting (vars w) /\
  auth_dir w' = auth_dir w /\ cache_dir w' = cache_dir w /\
  in_flight w' = in_flight w /\
  ~ destroys out /\ ~ builds out /\ ~ removes out.
Proof.
  unfold in_flight, destroys, builds, removes.
  destruct req; open_world w; js_run; intros H; inversion H; subst; clear H;
    cbn; rewrite ?flight_app; cbn; rewrite ?Nat.add_0_r;
    repeat (split; [reflexivity|]);
    (split; [|split]); intros [x Hx]; cbn in Hx;
    repeat (destruct Hx as [Hx|Hx]; [discriminate Hx|]); exact Hx.
Qed.

Lemma request_leaves_session_witness :
  exists w' out,
    step (Http (PostWebhookSet (Some "http://hook"))) (fst boot) =
    Some (w', out) /\
    restarting (vars w') = true /\ client (vars w') = Some 0%nat.
Proof.
  destruct (step (Http (PostWebhookSet (Some "http://hook"))) (fst boot))
    as [[w' out]|] eqn:Hs; [|vm_compute in Hs; discriminate Hs].
  exists w', out. split; [reflexivity|].
  destruct (request_leaves_session _ _ _ _ Hs)
    as [Hc [_ [_ [_ [_ [Hr _]]]]]].
  split; [rewrite Hr | rewrite Hc]; reflexivity.
Defined.

Lemma send_settled (i : nat) (o : Js.Settled Value) (w : World) :
  nth_error (pending w) i = Some AwaitSendMessage ->
  step (Settle i o) w =
  Some (set_pending (remove_nth i (pending w)) w,
        [match o with
         | Js.Resolved response => Respond 200 (SuccessBody response)
         | Js.Rejected err => Respond 500 (FailureBody err)
         end]).
Proof.
  intros H. unfold step. rewrite H. destruct o; open_world w; reflexivity.
Qed.

(** X7: when the [sendMessage] of [/send] or [/reply] settles, the request
    is answered once, 200 with the adapter's response or 500 with its
    error, and neither outcome changes a variable, a directory or the
    recoveries under way: a failed send starts no recovery. *)
Theorem send_outcome (i : nat) (o : Js.Settled Value) (w : World) :
  nth_error (pending w) i = Some AwaitSendMessage ->
  exists w' status body,
    step (Settle i o) w = Some (w', [Respond status body]) /\
    vars w' = vars w /\
    auth_dir w' = auth_dir w /\ cache_dir w' = cache_dir w /\
    in_flight w' = in_flight w /\
    (forall response, o = Js.Resolved response ->
                      status = 200 /\ body = SuccessBody response) /\
    (forall err, o = Js.Rejected err ->
                 status = 500 /\ body = FailureBody err).
Proof.
  intros Hi. pose proof (flight_remove _ _ _ Hi) as Hf. cbn in Hf.
  destruct o as [response|err].
  - do 3 eexists.
    split; [rewrite (send_settled i (Js.Resolved response) w Hi); reflexivity|].
    split; [reflexivity|]. split; [reflexivity|]. split; [reflexivity|].
    split; [unfold in_flight; cbn; lia|]. split.
    + intros r H. inversion H; subst. split; reflexivity.
    + discriminate.
  - do 3 eexists.
    split; [rewrite (send_settled i (Js.Rejected err) w Hi); reflexivity|].
    split; [reflexivity|]. split; [reflexivity|]. split; [reflexivity|].
    split; [unfold in_flight; cbn; lia|]. split.
    + discriminate.
    + intros e H. inversion H; subst. split; reflexivity.
Qed.

Lemma send_outcome_witness :
  exists w',
    step (Settle 1 (Js.Rejected "Session closed"))
      (set_pending [AwaitInitialize; AwaitSendMessage] (fst boot)) =
    Some (w', [Respond 500 (FailureBody "Session closed")]) /\
    vars w' = vars (fst boot).
Proof.
  destruct (send_outcome 1 (Js.Rejected "Session closed")
              (set_pending [AwaitInitialize; AwaitSendMessage] (fst boot))
              eq_refl)
    as [w' [status [body [Hs [Hv [_ [_ [_ [_ Hr]]]]]]]]].
  destruct (Hr "Session closed" eq_refl) as [-> ->].
  exists w'. split; [exact Hs | exact Hv].
Defined.

(** ** The heartbeat and the listening switch *)

Lemma step_keeps_lastReadyAt (e : Event) (w w' : World) (out : list Effect) :
  before_ready e ->
  step e w = Some (w', out) ->
  lastReadyAt (vars w') = lastReadyAt (vars w).
Proof.
  destruct e as [qr| |now|msg|msg|reason|now|req|i o|d s]; cbn [before_ready];
    try contradiction; intros _.
  8: { unfold step.
       destruct (nth_error (pending w) i) as [t|]; [|discriminate].
       generalize (remove_nth i (pending w)). intros p'.
       destruct (resume t o) as [m|] eqn:R; [|discriminate].
       open_world w.
       destruct t, o as [[]|]; cbn in R; inversion R; subst; clear R;
         js_run; intros H; inversion H; subst; reflexivity. }
  all: try destruct req; try destruct d; open_world w; js_run;
    intros H; inversion H; subst; reflexivity.
Qed.

(** X8: only [ready] writes [lastReadyAt]: along any run without a [ready]
    event (messages, sends, requests, recoveries) it keeps its value, so a
    session that stays ready is restarted by the first tick later than 15
    minutes after its last [ready], however active it has been. *)
Theorem heartbeat_not_refreshed (es : list Event) (w w' : World)
  (out : list Effect) :
  Forall before_ready es ->
  run es w = Some (w', out) ->
  lastReadyAt (vars w') = lastReadyAt (vars w) /\
  (forall now : Z,
      isReady (vars w') = true ->
      now - to_number (lastReadyAt (vars w)) > 15 * 60 * 1000 ->
      step (Tick now) w' =
      Some (fst (turn (hardRestart false) w'),
            heartbeat_lost :: snd (turn (hardRestart false) w'))).
Proof.
  intros Hes Hrun.
  assert (H : lastReadyAt (vars w') = lastReadyAt (vars w)).
  { revert w w' out Hrun.
    induction Hes as [|e es He Hes IH]; intros w w' out.
    - cbn. intros H. inversion H; subst. reflexivity.
    - cbn [run]. destruct (step e w) as [[w1 out1]|] eqn:Hs; [|discriminate].
      destruct (run es w1) as [[w2 out2]|] eqn:Hr; [|discriminate].
      intros H. inversion H; subst.
      rewrite (IH w1 w' out2 Hr). apply (step_keeps_lastReadyAt e w w1 out1 He Hs). }
  split; [exact H|].
  intros now Hr Hs. apply watchdog_fires; [exact Hr|].
  rewrite H. exact Hs.
Qed.

Lemma heartbeat_not_refreshed_witness :
  let w :=
    set_vars
      {| client := Some 0%nat; qrCodeData := None;
         isAuthenticated := true; isReady := true;
         webhookUrl := None; isListening := false;
         lastReadyAt := Some 0; restarting := false |} (fst boot) in
  step (Tick 900001) w =
  Some (fst (turn (hardRestart false) w),
        heartbeat_lost :: snd (turn (hardRestart false) w)).
Proof.
  intros w.
  assert (Hrun : run [OnMessage (mkMessage "1@c.us" "ping" 5 false);
                      Http (PostSend (Some "1") (Some "pong"));
                      Settle 1 (Js.Resolved (VString "sent"))] w =
                 Some (w, [SendMessage (Some 0%nat) (Some "1@c.us")
                             (Some "pong") None;
                           Respond 200 (SuccessBody (VString "sent"))]))
    by (vm_compute; reflexivity).
  assert (Hes : Forall before_ready
                  [OnMessage (mkMessage "1@c.us" "ping" 5 false);
                   Http (PostSend (Some "1") (Some "pong"));
                   Settle 1 (Js.Resolved (VString "sent"))])
    by (repeat constructor).
  apply (proj2 (heartbeat_not_refreshed _ w w _ Hes Hrun)).
  - reflexivity.
  - cbn. lia.
Defined.

Lemma step_listening_on (e : Event) (w w' : World) (out : list Effect) :
  isListening (vars w) = true ->
  step e w = Some (w', out) ->
  isListening (vars w') = true.
Proof.
  intros Hl.
  destruct e as [qr| |now|msg|msg|reason|now|req|i o|d s].
  9: { unfold step.
       destruct (nth_error (pending w) i) as [t|]; [|discriminate].
       generalize (remove_nth i (pending w)). intros p'.
       destruct (resume t o) as [m|] eqn:R; [|discriminate].
       open_world w. cbn in Hl.
       destruct t, o as [[]|]; cbn in R; inversion R; subst; clear R;
         js_run; intros H; inversion H; subst; reflexivity. }
  all: try destruct req; try destruct d; open_world w; cbn in Hl; js_run;
    intros H; inversion H; subst; cbn; auto.
Qed.

(** X9: nothing switches listening off: once [isListening] is true it is
    true after any run of events, recoveries and requests included. *)
Theorem listening_stays_on (es : list Event) (w w' : World)
  (out : list Effect) :
  isListening (vars w) = true ->
  run es w = Some (w', out) ->
  isListening (vars w') = true.
Proof.
  revert w w' out. induction es as [|e es IH]; intros w w' out Hl.
  - cbn. intros H. inversion H; subst. exact Hl.
  - cbn [run]. destruct (step e w) as [[w1 out1]|] eqn:Hs; [|discriminate].
    destruct (run es w1) as [[w2 out2]|] eqn:Hr; [|discriminate].
    intros H. inversion H; subst. apply (IH w1 w' out2); [|exact Hr].
    apply (step_listening_on e w w1 out1 Hl Hs).
Qed.

Lemma listening_stays_on_witness :
  let w := set_vars (set_isListening true (vars (fst boot))) (fst boot) in
  exists w' out,
    run [OnReady 0; OnAuthFailure "x"; Settle 1 (Js.Resolved VUndefined);
         Settle 1 (Js.Resolved VUndefined); Http (PostWebhookSet None)] w =
    Some (w', out) /\
    client (vars w') = Some 1%nat /\ isListening (vars w') = true.
Proof.
  intros w.
  destruct (run [OnReady 0; OnAuthFailure "x";
                 Settle 1 (Js.Resolved VUndefined);
                 Settle 1 (Js.Resolved VUndefined);
                 Http (PostWebhookSet None)] w)
    as [[w' out]|] eqn:Hrun; [|vm_compute in Hrun; discriminate Hrun].
  exists w', out. split; [reflexivity|]. split.
  - vm_compute in Hrun. inversion Hrun. reflexivity.
  - apply (listening_stays_on _ w w' out eq_refl Hrun).
Defined.

(** ** The client handle *)

(** X10: [client] is replaced in one place only, the end of a recovery: a
    step either keeps the handle and builds no client, or it is the end of
    the five-second wait of [hardRestart], which builds and starts the
    next client, leaves the guard up and the three flags down. *)
Theorem client_replaced_after_sleep (e : Event) (w w' : World)
  (out : list Effect) (id : nat) :
  step e w = Some (w', out) ->
  client (vars w) = Some id ->
  (client (vars w') = Some id /\ ~ builds out) \/
  (exists i v,
      e = Settle i (Js.Resolved v) /\
      nth_error (pending w) i = Some AwaitSleep /\
      client (vars w') = Some (S id) /\
      out = [Console LogLevel "Initializing WhatsApp Client...";
             NewClient (S id); ClientInitialize (S id)] /\
      restarting (vars w') = true /\
      isReady (vars w') = false /\
      isAuthenticated (vars w') = false /\
      qrCodeData (vars w') = None).
Proof.
  unfold builds.
  destruct e as [qr| |now|msg|msg|reason|now|req|i o|d s].
  9: { unfold step.
       destruct (nth_error (pending w) i) as [t|] eqn:Hi; [|discriminate].
       revert Hi. generalize (remove_nth i (pending w)). intros p' Hi.
       destruct (resume t o) as [m|] eqn:R; [|discriminate].
       destruct t, o as [v|err]; try destruct v; cbn in R; inversion R; subst;
         clear R.
       all: try (intros H Hc; right; exists i; eexists;
                 split; [reflexivity|]; split; [exact Hi|];
                 revert H Hc; open_world w; js_run;
                 intros H Hc; inversion H; subst;
                 cbn; repeat split; fail).
       all: open_world w; js_run; intros H Hc; inversion H; subst; clear H;
         cbn in *; left; (split; [first [assumption | reflexivity | congruence]|]); intros [x Hx]; cbn in Hx;
         repeat (destruct Hx as [Hx|Hx]; [discriminate Hx|]); exact Hx. }
  all: try destruct req; try destruct d; open_world w; js_run;
    intros H Hc; inversion H; subst; clear H; cbn in *; left;
    (split; [first [assumption | reflexivity | congruence]|]); intros [x Hx]; cbn in Hx;
    repeat (destruct Hx as [Hx|Hx]; [discriminate Hx|]); try exact Hx;
    try discriminate.
Qed.

Lemma client_replaced_after_sleep_witness :
  exists w',
    step (Settle 1 (Js.Resolved VUndefined))
      (set_pending [AwaitInitialize; AwaitSleep] (fst boot)) =
    Some (w', [Console LogLevel "Initializing WhatsApp Client...";
               NewClient 1; ClientInitialize 1]) /\
    client (vars w') = Some 1%nat.
Proof.
  destruct (step (Settle 1 (Js.Resolved VUndefined))
              (set_pending [AwaitInitialize; AwaitSleep] (fst boot)))
    as [[w' out]|] eqn:Hs; [|vm_compute in Hs; discriminate Hs].
  destruct (client_replaced_after_sleep _ _ w' out 0%nat Hs eq_refl)
    as [[Hc Hb]|[i [v [_ [_ [Hc [Ho _]]]]]]].
  - exfalso. apply Hb. vm_compute in Hs. inversion Hs; subst.
    exists 1%nat. right. left. reflexivity.
  - exists w'. subst out. split; [reflexivity | exact Hc].
Defined.

(** ** Before the first [ready] *)

Lemma destroys_app (out1 out2 : list Effect) :
  ~ destroys out1 -> ~ destroys out2 -> ~ destroys (out1 ++ out2)%list.
Proof.
  intros H1 H2 [id Hin]. apply in_app_or in Hin.
  destruct Hin; [apply H1 | apply H2]; exists id; assumption.
Qed.

Lemma builds_app (out1 out2 : list Effect) :
  ~ builds out1 -> ~ builds out2 -> ~ builds (out1 ++ out2)%list.
Proof.
  intros H1 H2 [id Hin]. apply in_app_or in Hin.
  destruct Hin; [apply H1 | apply H2]; exists id; assumption.
Qed.

Lemma removes_app (out1 out2 : list Effect) :
  ~ removes out1 -> ~ removes out2 -> ~ removes (out1 ++ out2)%list.
Proof.
  intros H1 H2 [id Hin]. apply in_app_or in Hin.
  destruct Hin; [apply H1 | apply H2]; exists id; assumption.
Qed.

Ltac no_effect :=
  let x := fresh "x" in let Hx := fresh "Hx" in
  intros [x Hx]; cbn in Hx;
  repeat (destruct Hx as [Hx|Hx]; [discriminate Hx|]); exact Hx.

Lemma step_waiting_for_ready (e : Event) (w w' : World) (out : list Effect) :
  before_ready e ->
  step e w = Some (w', out) ->
  restarting (vars w) = true /\ in_flight w = 0%nat /\
  isReady (vars w) = false ->
  (restarting (vars w') = true /\ in_flight w' = 0%nat /\
   isReady (vars w') = false) /\
  client (vars w') = client (vars w) /\
  ~ destroys out /\ ~ builds out /\ ~ removes out.
Proof.
  unfold in_flight, destroys, builds, removes.
  destruct e as [qr| |now|msg|msg|reason|now|req|i o|d s]; cbn [before_ready];
    try contradiction; intros _.
  8: { unfold step.
       destruct (nth_error (pending w) i) as [t|] eqn:Hi; [|discriminate].
       apply flight_remove in Hi. revert Hi.
       generalize (remove_nth i (pending w)). intros p' Hi.
       destruct (resume t o) as [m|] eqn:R; [|discriminate].
       open_world w. cbn [pending] in Hi.
       destruct t, o as [[]|]; cbn in R; inversion R; subst; clear R;
         cbn in Hi; js_run; intros H; inversion H; subst; clear H;
         cbn; rewrite ?flight_app; cbn; intros [Hg [Hf Hr]]; subst;
         try lia; try discriminate;
         (split; [repeat split; try reflexivity; lia|]);
         (split; [reflexivity|]);
         (split; [no_effect|]); (split; no_effect). }
  all: try destruct req; try destruct d; open_world w; js_run;
    intros H; inversion H; subst; clear H; cbn; rewrite ?flight_app; cbn;
    intros [Hg [Hf Hr]]; subst; try discriminate;
    (split; [repeat split; try reflexivity; lia|]);
    (split; [reflexivity|]);
    (split; [no_effect|]); (split; no_effect).
Qed.

(** X11: from start-up until the first [ready] is served, whatever else
    happens ([auth_failure], [disconnected], ticks, requests, settled
    promises), the first client stays in place: no client is destroyed, no
    directory is removed, no second client is built, and [isReady] stays
    false. *)
Theorem first_client_kept_until_ready (es : list Event) (w : World)
  (out : list Effect) :
  Forall before_ready es ->
  run es (fst boot) = Some (w, out) ->
  client (vars w) = Some 0%nat /\
  isReady (vars w) = false /\
  ~ destroys out /\ ~ builds out /\ ~ removes out.
Proof.
  intros Hes.
  assert (H : forall w0 w' out',
             restarting (vars w0) = true /\ in_flight w0 = 0%nat /\
             isReady (vars w0) = false ->
             run es w0 = Some (w', out') ->
             (restarting (vars w') = true /\ in_flight w' = 0%nat /\
              isReady (vars w') = false) /\
             client (vars w') = client (vars w0) /\
             ~ destroys out' /\ ~ builds out' /\ ~ removes out').
  { induction Hes as [|e es He Hes IH]; intros w0 w' out' Hk.
    - cbn. intros H. inversion H; subst. split; [exact Hk|].
      split; [reflexivity|]. split; [|split]; intros [x []].
    - cbn [run]. destruct (step e w0) as [[w1 out1]|] eqn:Hs; [|discriminate].
      destruct (run es w1) as [[w2 out2]|] eqn:Hr; [|discriminate].
      intros H. inversion H; subst.
      destruct (step_waiting_for_ready e w0 w1 out1 He Hs Hk)
        as [Hk1 [Hc1 [Hd1 [Hb1 Hr1]]]].
      destruct (IH w1 w' out2 Hk1 Hr) as [Hk2 [Hc2 [Hd2 [Hb2 Hr2]]]].
      split; [exact Hk2|]. split; [congruence|].
      split; [apply destroys_app; assumption|].
      split; [apply builds_app; assumption | apply removes_app; assumption]. }
  intros Hrun.
  destruct (H (fst boot) w out) as [[_ [_ Hr]] [Hc [Hd [Hb Hm]]]];
    [repeat split | exact Hrun |].
  split; [rewrite Hc; reflexivity|]. split; [exact Hr|].
  split; [exact Hd|]. split; [exact Hb | exact Hm].
Qed.

Lemma first_client_kept_until_ready_witness :
  exists w out,
    run [OnAuthFailure "expired"; Settle 0 (Js.Rejected "Protocol error");
         OnDisconnected "LOGOUT"; Tick 1000000;
         Http (PostSend (Some "1") (Some "hi"))] (fst boot) = Some (w, out) /\
    client (vars w) = Some 0%nat /\ ~ destroys out.
Proof.
  destruct (run [OnAuthFailure "expired";
                 Settle 0 (Js.Rejected "Protocol error");
                 OnDisconnected "LOGOUT"; Tick 1000000;
                 Http (PostSend (Some "1") (Some "hi"))] (fst boot))
    as [[w out]|] eqn:Hrun; [|vm_compute in Hrun; discriminate Hrun].
  exists w, out. split; [reflexivity|].
  assert (Hes : Forall before_ready
                  [OnAuthFailure "expired";
                   Settle 0 (Js.Rejected "Protocol error");
                   OnDisconnected "LOGOUT"; Tick 1000000;
                   Http (PostSend (Some "1") (Some "hi"))])
    by (repeat constructor).
  destruct (first_client_kept_until_ready _ w out Hes Hrun)
    as [Hc [_ [Hd _]]].
  split; assumption.
Defined.

(** ** When the directories are removed *)

Lemma in_remove_nth {A : Type} (i : nat) (l : list A) (x : A) :
  In x (remove_nth i l) -> In x l.
Proof.
  unfold remove_nth. revert i.
  induction l as [|y l IH]; intros [|i]; cbn; auto.
  intros [H|H]; [left; exact H | right; apply (IH i H)].
Qed.

Lemma step_no_wipe (e : Event) (w w' : World) (out : list Effect) :
  no_auth_failure e ->
  step e w = Some (w', out) ->
  no_wipe_pending w ->
  no_wipe_pending w' /\ ~ removes out.
Proof.
  unfold no_wipe_pending, removes.
  destruct e as [qr| |now|msg|msg|reason|now|req|i o|d s];
    cbn [no_auth_failure]; try contradiction; intros _.
  8: { unfold step.
       destruct (nth_error (pending w) i) as [t|] eqn:Hi; [|discriminate].
       pose proof (nth_error_In _ _ Hi) as Hin.
       pose proof (in_remove_nth i (pending w) (AwaitDestroy true)) as Hsub.
       revert Hsub. generalize (remove_nth i (pending w)). intros p' Hsub.
       destruct (resume t o) as [m|] eqn:R; [|discriminate].
       open_world w. cbn [pending] in Hin, Hsub. clear Hi.
       destruct t as [| | |[|]| | |], o as [[]|]; cbn in R; inversion R; subst;
         clear R; js_run; intros H; inversion H; subst; clear H; cbn;
         intros Hw; try (exfalso; apply Hw; exact Hin);
         (split; [intros Hp; try (apply in_app_or in Hp;
                                   destruct Hp as [Hp|[Hp|[]]];
                                   [|discriminate Hp]);
                  apply Hw, Hsub, Hp
                 | no_effect]). }
  all: try destruct req; try destruct d; open_world w; js_run;
    intros H; inversion H; subst; clear H; cbn; intros Hw;
    (split; [intros Hp; try (apply in_app_or in Hp;
                              destruct Hp as [Hp|[Hp|[]]];
                              [|discriminate Hp]);
             apply Hw, Hp
            | no_effect]).
Qed.

(** X12: the directories are removed only in a recovery that
    [auth_failure] started: along any run without [auth_failure], from a
    state where no recovery with a wipe is waiting, no directory is
    removed, whatever [disconnected] events and watchdog ticks trigger. *)
Theorem wipe_only_after_auth_failure (es : list Event) (w w' : World)
  (out : list Effect) :
  no_wipe_pending w ->
  Forall no_auth_failure es ->
  run es w = Some (w', out) ->
  ~ removes out /\ no_wipe_pending w'.
Proof.
  intros Hw Hes. revert w w' out Hw.
  induction Hes as [|e es He Hes IH]; intros w w' out Hw.
  - cbn. intros H. inversion H; subst. split; [intros [x []] | exact Hw].
  - cbn [run]. destruct (step e w) as [[w1 out1]|] eqn:Hs; [|discriminate].
    destruct (run es w1) as [[w2 out2]|] eqn:Hr; [|discriminate].
    intros H. inversion H; subst.
    destruct (step_no_wipe e w w1 out1 He Hs Hw) as [Hw1 Hr1].
    destruct (IH w1 w' out2 Hw1 Hr) as [Hr2 Hw2].
    split; [apply removes_app; assumption | exact Hw2].
Qed.

Lemma wipe_only_after_auth_failure_witness :
  exists w out,
    run [OnReady 0; FsChange AuthDir Removable; OnDisconnected "NAVIGATION";
         Settle 1 (Js.Rejected "closed"); Settle 1 (Js.Resolved VUndefined);
         OnReady 7; Tick 1000000; Settle 2 (Js.Resolved VUndefined)]
      (fst boot) = Some (w, out) /\
    auth_dir w = Removable /\ ~ removes out.
Proof.
  destruct (run [OnReady 0; FsChange AuthDir Removable;
                 OnDisconnected "NAVIGATION"; Settle 1 (Js.Rejected "closed");
                 Settle 1 (Js.Resolved VUndefined); OnReady 7; Tick 1000000;
                 Settle 2 (Js.Resolved VUndefined)] (fst boot))
    as [[w out]|] eqn:Hrun; [|vm_compute in Hrun; discriminate Hrun].
  exists w, out. split; [reflexivity|]. split.
  - vm_compute in Hrun. inversion Hrun. reflexivity.
  - assert (Hw : no_wipe_pending (fst boot)).
    { intros [H|[]]. discriminate H. }
    assert (Hes : Forall no_auth_failure
                    [OnReady 0; FsChange AuthDir Removable;
                     OnDisconnected "NAVIGATION";
                     Settle 1 (Js.Rejected "closed");
                     Settle 1 (Js.Resolved VUndefined); OnReady 7;
                     Tick 1000000; Settle 2 (Js.Resolved VUndefined)])
      by (repeat constructor).
    apply (wipe_only_after_auth_failure _ (fst boot) w out Hw Hes Hrun).
Defined.

(** ** A QR code while the session is up *)

Lemma qr_settled (i : nat) (data : string) (w : World) :
  nth_error (pending w) i = Some AwaitToDataURL ->
  step (Settle i (Js.Resolved (VString data))) w =
  Some ({| vars :=
             {| client := client (vars w); qrCodeData := Some data;
                isAuthenticated := false; isReady := false;
                webhookUrl := webhookUrl (vars w);
                isListening := isListening (vars w);
                lastReadyAt := lastReadyAt (vars w);
                restarting := restarting (vars w) |};
           pending := remove_nth i (pending w);
           auth_dir := auth_dir w; cache_dir := cache_dir w |}, []).
Proof. intros H. unfold step. rewrite H. open_world w. reflexivity. Qed.

Lemma qr_failed (i : nat) (err : string) (w : World) :
  nth_error (pending w) i = Some AwaitToDataURL ->
  step (Settle i (Js.Rejected err)) w =
  Some (set_pending (remove_nth i (pending w)) w, [UnhandledRejection err]).
Proof. intros H. unfold step. rewrite H. open_world w. reflexivity. Qed.

(** X13: when the encoding of a QR code settles, the payload is stored and
    [isAuthenticated] and [isReady] go down, in whatever state the session
    was: from then on [/send] answers 503, the watchdog tick does nothing
    and [GET /auth/qr] serves the payload (when it is not empty), while the
    guard, the client and [lastReadyAt] are untouched and no recovery
    starts.  When the encoding fails, no variable changes. *)
Theorem qr_code_takes_session_down (i : nat) (data : string) (w : World) :
  nth_error (pending w) i = Some AwaitToDataURL ->
  (exists w',
      step (Settle i (Js.Resolved (VString data))) w = Some (w', []) /\
      qrCodeData (vars w') = Some data /\
      isAuthenticated (vars w') = false /\ isReady (vars w') = false /\
      restarting (vars w') = restarting (vars w) /\
      client (vars w') = client (vars w) /\
      lastReadyAt (vars w') = lastReadyAt (vars w) /\
      in_flight w' = in_flight w /\
      (forall to message,
          step (Http (PostSend to message)) w' = Some (w', [not_ready])) /\
      (forall now, step (Tick now) w' = Some (w', [])) /\
      (data <> "" ->
       step (Http GetAuthQr) w' = Some (w', [Respond 200 (QrBody data)]))) /\
  (forall err, exists w',
      step (Settle i (Js.Rejected err)) w =
      Some (w', [UnhandledRejection err]) /\
      vars w' = vars w).
Proof.
  intros Hi. pose proof (flight_remove _ _ _ Hi) as Hf. cbn in Hf. split.
  - eexists. split; [apply (qr_settled i data w Hi)|].
    repeat (split; [reflexivity|]).
    split; [unfold in_flight; cbn; lia|]. split; [|split].
    + intros to message. apply post_send_rejected. reflexivity.
    + intros now. apply watchdog_idle. cbn. intros [H _]. discriminate H.
    + intros Hne. js_unfold. cbn.
      rewrite (truthy_string_nonempty data Hne). reflexivity.
  - intros err. eexists. split; [apply (qr_failed i err w Hi) | reflexivity].
Qed.

Lemma qr_code_takes_session_down_witness :
  exists w out,
    run [OnReady 0; OnQr "ABC"; Settle 1 (Js.Resolved (VString "data:x"));
         Http (PostSend (Some "1") (Some "hi"))] (fst boot) = Some (w, out) /\
    In not_ready out.
Proof.
  pose (w1 := set_pending [AwaitInitialize; AwaitToDataURL]
                (set_vars
                   {| client := Some 0%nat; qrCodeData := None;
                      isAuthenticated := true; isReady := true;
                      webhookUrl := None; isListening := false;
                      lastReadyAt := Some 0; restarting := false |}
                   (fst boot))).
  destruct (qr_code_takes_session_down 1 "data:x" w1 eq_refl)
    as [[w' [Hs [_ [_ [_ [_ [_ [_ [_ [Hsend _]]]]]]]]]] _].
  exists w'. eexists. split.
  - cbn [run].
    change (step (OnReady 0) (fst boot)) with
      (Some (set_vars (vars w1) (fst boot), [Console LogLevel "CLIENT READY"])).
    cbv beta iota.
    change (step (OnQr "ABC") (set_vars (vars w1) (fst boot))) with
      (Some (w1, [Console LogLevel "QR RECEIVED"; ToDataURL "ABC"])).
    cbv beta iota. rewrite Hs, (Hsend (Some "1") (Some "hi")). reflexivity.
  - cbn. right. right. right. left. reflexivity.
Defined.

(** ** [initializeClient] *)

(** X14: [initializeClient] does not overlap itself: it always leaves the
    guard up, so a second call right after it does nothing; called with
    the guard up it changes nothing and builds no client, and called with
    the guard down it builds exactly the next client and puts the three
    flags down. *)
Theorem initializeClient_not_reentrant (w : World) :
  let w1 := fst (turn initializeClient w) in
  restarting (vars w1) = true /\
  turn initializeClient w1 = (w1, []) /\
  (restarting (vars w) = true -> turn initializeClient w = (w, [])) /\
  (restarting (vars w) = false ->
   snd (turn initializeClient w) =
   [Console LogLevel "Initializing WhatsApp Client...";
    NewClient (fresh_client (vars w));
    ClientInitialize (fresh_client (vars w))] /\
   client (vars w1) = Some (fresh_client (vars w)) /\
   qrCodeData (vars w1) = None /\
   isAuthenticated (vars w1) = false /\ isReady (vars w1) = false /\
   pending w1 = (pending w ++ [AwaitInitialize])%list).
Proof.
  open_world w. destruct g; cbn.
  - split; [reflexivity|]. split; [reflexivity|]. split; [reflexivity|].
    discriminate.
  - split; [reflexivity|]. split; [reflexivity|]. split; [discriminate|].
    intros _. repeat split.
Qed.

Lemma initializeClient_not_reentrant_witness :
  turn initializeClient (fst boot) = (fst boot, []).
Proof.
  destruct (initializeClient_not_reentrant (fst boot)) as [_ [_ [H _]]].
  apply H. reflexivity.
Defined.

(** ** The relay after configuration *)

Lemma run_keeps_config (es : list Event) :
  forall (w w' : World) (out : list Effect),
    Forall keeps_config es ->
    run es w = Some (w', out) ->
    webhookUrl (vars w') = webhookUrl (vars w) /\
    isListening (vars w') = isListening (vars w).
Proof.
  induction es as [|e es IH]; intros w w' out Hes.
  - cbn. intros H. inversion H; subst. split; reflexivity.
  - inversion Hes as [|? ? He Hes']; subst. cbn [run].
    destruct (step e w) as [[w1 out1]|] eqn:Hs; [|discriminate].
    destruct (run es w1) as [[w2 out2]|] eqn:Hr; [|discriminate].
    intros H. inversion H; subst.
    destruct (step_keeps_config e w w1 out1 Hs He) as [H1 H2].
    destruct (IH w1 w' out2 Hes' Hr) as [H3 H4].
    split; congruence.
Qed.

Lemma run_cons (e : Event) (es : list Event) (w w' : World)
  (out : list Effect) :
  run (e :: es) w = Some (w', out) ->
  exists w1 out1 out2,
    step e w = Some (w1, out1) /\ run es w1 = Some (w', out2) /\
    out = (out1 ++ out2)%list.
Proof.
  cbn [run]. destruct (step e w) as [[w1 out1]|]; [|discriminate].
  destruct (run es w1) as [[w2 out2]|] eqn:Hr; [|discriminate].
  intros H. inversion H; subst. exists w1, out1, out2.
  split; [reflexivity|]. split; [exact Hr | reflexivity].
Qed.

Lemma get_listen_world (w : World) :
  step (Http GetListen) w =
  Some (set_vars (set_isListening true (vars w)) w,
        [Respond 200 (ListeningBody "Listening enabled")]).
Proof. open_world w. reflexivity. Qed.

Lemma post_webhook_set_world (u : option string) (w : World) :
  step (Http (PostWebhookSet u)) w =
  Some (set_vars (set_webhookUrl u (vars w)) w, [Respond 200 (UrlBody u)]).
Proof. open_world w. reflexivity. Qed.

(** X15: once [GET /listen] and [POST /webhook/set] with a non-empty URL
    have been served, every inbound message is posted to that URL, with the
    payload of the message, after any run of events that holds no further
    configuration request: recoveries and reinitialisations do not switch
    the relay off. *)
Theorem relay_follows_last_config (u : string) (es : list Event)
  (msg : Message) (w w' : World) (out : list Effect) :
  u <> "" ->
  Forall keeps_config es ->
  run (Http GetListen :: Http (PostWebhookSet (Some u)) :: es) w =
  Some (w', out) ->
  step (OnMessage msg) w' =
  Some (set_pending (pending w' ++ [AwaitPost]) w',
        [AxiosPost u (webhook_payload msg)]).
Proof.
  intros Hu Hes Hrun.
  apply run_cons in Hrun. destruct Hrun as [w1 [out1 [out2 [Hs1 [Hrun _]]]]].
  rewrite get_listen_world in Hs1. inversion Hs1; subst. clear Hs1.
  apply run_cons in Hrun. destruct Hrun as [w2 [out3 [out4 [Hs2 [Hrun _]]]]].
  rewrite post_webhook_set_world in Hs2. inversion Hs2; subst. clear Hs2.
  destruct (run_keeps_config es _ w' out4 Hes Hrun) as [H1 H2].
  apply (on_message_relays msg w' u).
  - rewrite H2. destruct w as [[] ? ? ?]. reflexivity.
  - rewrite H1. destruct w as [[] ? ? ?]. reflexivity.
  - apply truthy_string_nonempty. exact Hu.
Qed.

Lemma relay_follows_last_config_witness :
  exists w' out,
    run [Http GetListen; Http (PostWebhookSet (Some "http://hook"));
         OnReady 0; OnDisconnected "NAVIGATION";
         Settle 1 (Js.Resolved VUndefined); Settle 1 (Js.Resolved VUndefined)]
      (fst boot) = Some (w', out) /\
    client (vars w') = Some 1%nat /\
    step (OnMessage (mkMessage "1-2@g.us" "hi" 9 false)) w' =
    Some (set_pending (pending w' ++ [AwaitPost]) w',
          [AxiosPost "http://hook"
             (webhook_payload (mkMessage "1-2@g.us" "hi" 9 false))]).
Proof.
  destruct (run [Http GetListen; Http (PostWebhookSet (Some "http://hook"));
                 OnReady 0; OnDisconnected "NAVIGATION";
                 Settle 1 (Js.Resolved VUndefined);
                 Settle 1 (Js.Resolved VUndefined)] (fst boot))
    as [[w1 out1]|] eqn:Hrun; [|vm_compute in Hrun; discriminate Hrun].
  assert (Hes : Forall keeps_config
                  [OnReady 0; OnDisconnected "NAVIGATION";
                   Settle 1 (Js.Resolved VUndefined);
                   Settle 1 (Js.Resolved VUndefined)])
    by (repeat constructor).
  assert (Hne : "http://hook" <> "") by discriminate.
  exists w1, out1. split; [reflexivity|]. split.
  - vm_compute in Hrun. inversion Hrun. reflexivity.
  - apply (relay_follows_last_config "http://hook" _
             (mkMessage "1-2@g.us" "hi" 9 false) (fst boot) w1 out1
             Hne Hes Hrun).
Defined.

(** ** Exceptions that escape *)

(** X16: an exception leaves a handler unhandled in three cases only: the
    step runs the wipe of [hardRestart] (it resumes a recovery parked at
    [client.destroy()] that was started with a wipe, or it is an
    [auth_failure] served with the guard down and no client) and a removal
    throws; [qrcode.toDataURL] is rejected; [client.initialize()] is
    rejected.  So a failing [destroy], [sendMessage], [getChats] or webhook
    request never escapes, whatever the state of the directories. *)
Theorem unhandled_rejection_sources (e : Event) (w w' : World)
  (out : list Effect) (err : string) :
  step e w = Some (w', out) ->
  In (UnhandledRejection err) out ->
  (exists i o,
      e = Settle i o /\
      nth_error (pending w) i = Some (AwaitDestroy true) /\
      wipe_throws err w) \/
  (exists msg,
      e = OnAuthFailure msg /\
      restarting (vars w) = false /\ client (vars w) = None /\
      wipe_throws err w) \/
  (exists i,
      e = Settle i (Js.Rejected err) /\
      (nth_error (pending w) i = Some AwaitInitialize \/
       nth_error (pending w) i = Some AwaitToDataURL)).
Proof.
  unfold wipe_throws.
  destruct e as [qr| |now|msg|msg|reason|now|req|i o|d s].
  9: { unfold step.
       destruct (nth_error (pending w) i) as [t|] eqn:Hi; [|discriminate].
       revert Hi. generalize (remove_nth i (pending w)). intros p' Hi.
       destruct (resume t o) as [m|] eqn:R; [|discriminate].
       destruct t as [| | |[|]| | |], o as [v|e0]; try destruct v;
         cbn in R; inversion R; subst; clear R.
       all: try (intros H Hin; right; right; exists i;
                 revert H Hin; open_world w; js_run;
                 intros H Hin; inversion H; subst; clear H;
                 cbn in Hin; destruct Hin as [Hin|[]]; inversion Hin; subst;
                 split; [reflexivity | auto]; fail).
       all: try (intros H Hin; left; exists i; eexists;
                 split; [reflexivity|]; split; [exact Hi|];
                 revert H Hin; clear Hi; open_world w; js_run;
                 intros H Hin; inversion H; subst; clear H; cbn in Hin;
                 repeat (destruct Hin as [Hin|Hin];
                         [try discriminate Hin; inversion Hin; subst|]);
                 try contradiction; cbn;
                 first [left; reflexivity
                       | right; split; [discriminate | reflexivity]]; fail).
       all: open_world w; js_run; intros H Hin; inversion H; subst; clear H;
         cbn in Hin;
         repeat (destruct Hin as [Hin|Hin]; [discriminate Hin|]);
         contradiction. }
  5: { intros H Hin. right. left. exists msg. split; [reflexivity|].
       revert H Hin. open_world w. js_run;
         intros H Hin; inversion H; subst; clear H; cbn in Hin;
         repeat (destruct Hin as [Hin|Hin];
                 [try discriminate Hin; inversion Hin; subst|]);
         try contradiction; cbn;
         (split; [reflexivity|]); (split; [reflexivity|]);
         first [left; reflexivity
               | right; split; [discriminate | reflexivity]]. }
  all: try destruct req; try destruct d; open_world w; js_run;
    intros H Hin; inversion H; subst; clear H; cbn in Hin;
    repeat (destruct Hin as [Hin|Hin]; [discriminate Hin|]);
    contradiction.
Qed.

Lemma unhandled_rejection_sources_witness :
  let w := set_dir AuthDir (Stuck "boom")
             (set_pending [AwaitSendMessage; AwaitDestroy false] (fst boot)) in
  ~ exists i w' out,
      step (Settle i (Js.Rejected "boom")) w = Some (w', out) /\
      In (UnhandledRejection "boom") out.
Proof.
  intros w [i [w' [out [Hs Hin]]]].
  assert (Hp : forall t, nth_error (pending w) i = Some t ->
                         t = AwaitSendMessage \/ t = AwaitDestroy false).
  { intros t Ht. destruct i as [|[|i]]; cbn in Ht.
    - inversion Ht. left. reflexivity.
    - inversion Ht. right. reflexivity.
    - destruct i; discriminate Ht. }
  destruct (unhandled_rejection_sources _ w w' out "boom" Hs Hin)
    as [[i0 [o [He [Hi _]]]]|[[msg [He _]]|[i0 [He [Hi|Hi]]]]].
  - inversion He; subst. destruct (Hp _ Hi); discriminate.
  - discriminate He.
  - inversion He; subst. destruct (Hp _ Hi); discriminate.
  - inversion He; subst. destruct (Hp _ Hi); discriminate.
Defined.

(** ** Whole recoveries *)

Lemma recovery_in_order_witness :
  exists w',
    run [OnDisconnected "NAVIGATION"; Settle 1 (Js.Rejected "Target closed");
         Settle 1 (Js.Resolved VUndefined)]
      (set_vars (set_restarting false (vars (fst boot))) (fst boot)) =
    Some (w',
          [Console WarnLevel "DISCONNECTED: NAVIGATION";
           Console LogLevel "Restarting WhatsApp client..."; ClientDestroy 0;
           SetTimeout 5000;
           Console LogLevel "Initializing WhatsApp Client...";
           NewClient 1; ClientInitialize 1]) /\
    client (vars w') = Some 1%nat.
Proof.
  destruct (recovery_in_order "NAVIGATION"
              (set_vars (set_restarting false (vars (fst boot))) (fst boot))
              0%nat (Js.Rejected "Target closed") eq_refl eq_refl)
    as [w' [Hrun [_ [Hc _]]]].
  exists w'. split; [exact Hrun | exact Hc].
Defined.

Lemma recovery_with_wipe_in_order_witness :
  exists w',
    run [OnAuthFailure "expired"; Settle 1 (Js.Resolved VUndefined);
         Settle 1 (Js.Resolved VUndefined)]
      (set_dir AuthDir Removable
         (set_vars (set_restarting false (vars (fst boot))) (fst boot))) =
    Some (w',
          [Console ErrorLevel "AUTH FAILURE: expired";
           Console LogLevel "Restarting WhatsApp client..."; ClientDestroy 0;
           Console LogLevel "Clearing auth cache..."; RmSync ".wwebjs_auth";
           RmSync ".wwebjs_cache"; SetTimeout 5000;
           Console LogLevel "Initializing WhatsApp Client...";
           NewClient 1; ClientInitialize 1]) /\
    auth_dir w' = Missing.
Proof.
  assert (Ha : forall errno,
             auth_dir (set_dir AuthDir Removable
                         (set_vars (set_restarting false (vars (fst boot)))
                            (fst boot))) <> Stuck errno) by discriminate.
  assert (Hc : forall errno,
             cache_dir (set_dir AuthDir Removable
                          (set_vars (set_restarting false (vars (fst boot)))
                             (fst boot))) <> Stuck errno) by discriminate.
  destruct (recovery_with_wipe_in_order "expired"
              (set_dir AuthDir Removable
                 (set_vars (set_restarting false (vars (fst boot)))
                    (fst boot)))
              0%nat (Js.Resolved VUndefined) eq_refl eq_refl Ha Hc)
    as [w' [Hrun [_ [_ [_ [Hd _]]]]]].
  exists w'. split; [exact Hrun | exact Hd].
Defined.

